(** * Nano Banana Agent: the conversation orchestrator of [src/App.tsx]

    A shallow embedding of the state handlers of the [App] component
    ([handleSendMessage], [handleUpdateMessage], [clearChat],
    [exportChatHistory]) together with the properties of the turn
    orchestration stated in the specification.

    - JavaScript strings are sequences of UTF-16 code units ([list N]), so
      that [String.prototype.trim] and [String.prototype.split] can be
      written out as ECMAScript defines them.
    - The component state (the [useState] cells) is a record; every state
      setter called by a handler is an [Action], and a handler is a [Task]:
      a tree of synchronous actions and suspension points ([await]).
    - The AI client ([gemini]) is an external collaborator: a task only
      records the call and continues with whatever outcome it is given. *)

From Stdlib Require Import List ZArith NArith Bool Ascii String Lia.
From Stdlib Require Import DecimalString DecimalPos DecimalZ.
Import ListNotations.

Local Open Scope N_scope.
Local Open Scope list_scope.

(** ** JavaScript strings *)

Definition jsstring := list N.

(** The code units of an ASCII literal of the source. *)
Definition js (s : string) : jsstring :=
  List.map N_of_ascii (list_ascii_of_string s).

(** The double quote, written by its code unit. *)
Definition dquote : jsstring := [34].
Definition newline : jsstring := [10].
Definition comma : N := 44.
Definition colon : N := 58.
Definition semicolon : N := 59.

(** Truthiness of a string: only the empty string is falsy. *)
Definition truthy (s : jsstring) : bool :=
  match s with
  | [] => false
  | _ :: _ => true
  end.

(** Truthiness of [string | null | undefined]. *)
Definition truthy_opt (o : option jsstring) : bool :=
  match o with
  | Some s => truthy s
  | None => false
  end.

Fixpoint eqb_str (a b : jsstring) : bool :=
  match a, b with
  | [], [] => true
  | x :: a', y :: b' => (x =? y) && eqb_str a' b'
  | _, _ => false
  end.

(** ECMAScript WhiteSpace and LineTerminator code points, the characters
    that [trim] strips (all of them lie in the basic plane). *)
Definition isWhiteSpace (c : N) : bool :=
  (c =? 9) || (c =? 10) || (c =? 11) || (c =? 12) || (c =? 13) ||
  (c =? 32) || (c =? 160) || (c =? 5760) ||
  ((8192 <=? c) && (c <=? 8202)) ||
  (c =? 8232) || (c =? 8233) || (c =? 8239) || (c =? 8287) ||
  (c =? 12288) || (c =? 65279).

Fixpoint trimStart (s : jsstring) : jsstring :=
  match s with
  | [] => []
  | c :: r => if isWhiteSpace c then trimStart r else s
  end.

Definition trimEnd (s : jsstring) : jsstring := rev (trimStart (rev s)).

Definition trim (s : jsstring) : jsstring := trimEnd (trimStart s).

(** [s.split(sep)] for a one-character separator: never empty, and
    [[""]] on the empty string. *)
Fixpoint split (sep : N) (s : jsstring) : list jsstring :=
  match s with
  | [] => [[]]
  | c :: r =>
      if c =? sep then [] :: split sep r
      else match split sep r with
           | [] => [[c]]
           | h :: t => (c :: h) :: t
           end
  end.

(** [xs.slice(-n)]: the last [n] elements, all of them when there are fewer. *)
Definition slice_last {A : Type} (n : nat) (xs : list A) : list A :=
  skipn (List.length xs - n) xs.

(** [Number.prototype.toString] on an integral number of milliseconds. *)
Definition toString (z : Z) : jsstring :=
  js (NilZero.string_of_int (Z.to_int z)).

(** ** Data model ([types.ts]) *)

(** Modelled from the spec: the [Role] enumeration of [./types], which the
    spec gives as one of user and agent. *)
Inductive Role : Type := USER | AGENT.

(** Modelled from the spec: a content part of [./types]; the handlers test
    both fields for truthiness, so both are optional. *)
Record Part : Type := mkPart {
  text : option jsstring;
  image : option jsstring
}.

Definition textPart (t : jsstring) : Part := mkPart (Some t) None.
Definition imagePart (u : jsstring) : Part := mkPart None (Some u).

(** Modelled from the spec: the [Message] record of [./types]. *)
Record Message : Type := mkMessage {
  id : jsstring;
  role : Role;
  content : list Part;
  timestamp : Z;
  isPending : option bool
}.

(** The [useState] cells of [App]. *)
Record State : Type := mkState {
  messages : list Message;
  inputValue : jsstring;
  isTyping : bool;
  isImageMode : bool;
  isListening : bool;
  pendingImage : option jsstring
}.

Definition initial : State := mkState [] [] false false false None.

(** ** Request shape of the external model *)

Inductive RequestPart : Type :=
| ReqText (t : jsstring)
| ReqInlineData (data : option jsstring) (mimeType : option jsstring).

Record Content : Type := mkContent {
  c_role : jsstring;
  parts : list RequestPart
}.

(** ** Effects *)

Inductive Thrown : Type := TypeError | Rejection.

Inductive Outcome : Type := Resolved (v : jsstring) | Rejected.

Inductive AsyncCall : Type :=
| GenerateTextResponse (prompt : jsstring) (history : option (list Content))
                       (attached : option jsstring)
| GenerateImage (prompt : jsstring).

Inductive Action : Type :=
| SetInputValue (v : jsstring)
| SetPendingImage (v : option jsstring)
| SetIsImageMode (b : bool)
| SetIsTyping (b : bool)
| SetIsListening (b : bool)
| StopRecognition
| AppendMessage (m : Message)
| PatchMessage (i : jsstring) (c : list Part) (pending : bool)
| UpdateContent (i : jsstring) (c : list Part)
| ClearMessages
| ConsoleError (e : Thrown)
| Alert (notice : jsstring)
| Download (filename : jsstring) (body : jsstring).

(** A handler: synchronous actions, the synchronous intent classifier, and
    awaited calls whose continuation receives the settled outcome. *)
Inductive Task : Type :=
| Done
| Do (a : Action) (k : Task)
| Classify (t : jsstring) (k : bool -> Task)
| Await (c : AsyncCall) (k : Outcome -> Task).

Declare Scope task_scope.
Delimit Scope task_scope with task.
Notation "a ;; k" := (Do a k) (at level 61, right associativity) : task_scope.
Local Open Scope task_scope.

(** What a state setter does to the state.  The two mapping updaters
    rewrite every message carrying the given id. *)
Definition patch (i : jsstring) (c : list Part) (p : bool) (msg : Message) : Message :=
  if eqb_str (id msg) i
  then mkMessage (id msg) (role msg) c (timestamp msg) (Some p)
  else msg.

Definition update (i : jsstring) (c : list Part) (msg : Message) : Message :=
  if eqb_str (id msg) i
  then mkMessage (id msg) (role msg) c (timestamp msg) (isPending msg)
  else msg.

Definition with_messages (f : list Message -> list Message) (s : State) : State :=
  mkState (f (messages s)) (inputValue s) (isTyping s) (isImageMode s)
          (isListening s) (pendingImage s).

Definition apply (a : Action) (s : State) : State :=
  match a with
  | SetInputValue v =>
      mkState (messages s) v (isTyping s) (isImageMode s) (isListening s) (pendingImage s)
  | SetPendingImage v =>
      mkState (messages s) (inputValue s) (isTyping s) (isImageMode s) (isListening s) v
  | SetIsImageMode b =>
      mkState (messages s) (inputValue s) (isTyping s) b (isListening s) (pendingImage s)
  | SetIsTyping b =>
      mkState (messages s) (inputValue s) b (isImageMode s) (isListening s) (pendingImage s)
  | SetIsListening b =>
      mkState (messages s) (inputValue s) (isTyping s) (isImageMode s) b (pendingImage s)
  | AppendMessage m => with_messages (fun prev => prev ++ [m]) s
  | PatchMessage i c p => with_messages (List.map (patch i c p)) s
  | UpdateContent i c => with_messages (List.map (update i c)) s
  | ClearMessages => with_messages (fun _ => []) s
  | StopRecognition | ConsoleError _ | Alert _ | Download _ _ => s
  end.

(** ** History mapping (lines 160-171) *)

(** [xs[n]]: [undefined] past the end. *)
Definition at_index {A : Type} (xs : list A) (n : nat) : option A := nth_error xs n.

(** A field that is present and truthy. *)
Definition field (o : option jsstring) : option jsstring :=
  match o with
  | Some s => if truthy s then Some s else None
  | None => None
  end.

(** The callback of [m.content.map]; [None] is the [TypeError] raised by
    calling [split] on [undefined]. *)
Definition requestPart (c : Part) : option RequestPart :=
  match field (text c) with
  | Some t => Some (ReqText t)
  | None =>
      match field (image c) with
      | Some u =>
          let data := at_index (split comma u) 1 in
          match at_index (split comma u) 0 with
          | None => None
          | Some header =>
              match at_index (split colon header) 1 with
              | None => None
              | Some declared =>
                  Some (ReqInlineData data (at_index (split semicolon declared) 0))
              end
          end
      | None => Some (ReqText [])
      end
  end.

(** [xs.map(f)] for a callback that may throw. *)
Fixpoint traverse {A B : Type} (f : A -> option B) (xs : list A) : option (list B) :=
  match xs with
  | [] => Some []
  | x :: r =>
      match f x with
      | None => None
      | Some y =>
          match traverse f r with
          | None => None
          | Some ys => Some (y :: ys)
          end
      end
  end.

Definition requestRole (r : Role) : jsstring :=
  match r with
  | USER => js "user"
  | AGENT => js "model"
  end.

Definition requestContent (m : Message) : option Content :=
  match traverse requestPart (content m) with
  | Some ps => Some (mkContent (requestRole (role m)) ps)
  | None => None
  end.

Definition history_of (msgs : list Message) : option (list Content) :=
  traverse requestContent (slice_last 6 msgs).

(** ** [handleSendMessage] (lines 99-190) *)

(** The four clock readings of one submission: [Date.now()] and
    [new Date()] for the user turn, then for the agent turn. *)
Record Clock : Type := mkClock {
  now_user : Z;
  date_user : Z;
  now_agent : Z;
  date_agent : Z
}.

Definition failureText : jsstring :=
  js "The generation failed. Please refine your prompt and try again.".

Definition defaultPrompt : jsstring := js "What's in this image?".

Definition acknowledgement (userText : jsstring) : jsstring :=
  js "Initiating Banana Vision... Crafting high-fidelity visualization for: "
  ++ dquote ++ userText ++ dquote.

Definition confirmationPrompt (userText : jsstring) : jsstring :=
  js "The user wants to visualize: " ++ dquote ++ userText ++ dquote
  ++ js ". Confirm you are generating it.".

(** [a || b] on strings. *)
Definition or_else (a b : jsstring) : jsstring := if truthy a then a else b.

(** [x || undefined]. *)
Definition or_undefined (x : option jsstring) : option jsstring := field x.

Definition userContent (userText : jsstring) (currentPendingImage : option jsstring)
  : list Part :=
  (if truthy userText then [textPart userText] else [])
  ++ match field currentPendingImage with
     | Some u => [imagePart u]
     | None => []
     end.

(** Line 140, with the short-circuit order of [&&] and [||]. *)
Definition isImageRequest (currentPendingImage : option jsstring) (forceImageGen : bool)
  (userText : jsstring) (k : bool -> Task) : Task :=
  if negb (truthy_opt currentPendingImage)
  then (if forceImageGen then k true else Classify userText k)
  else k false.

(** The guard of line 100. *)
Definition rejected (s : State) : bool :=
  (negb (truthy (trim (inputValue s))) && negb (truthy_opt (pendingImage s)))
  || isTyping s.

(** The two turns of the exchange, as lines 118-135 build them. *)
Definition userMessage (s : State) (clk : Clock) : Message :=
  mkMessage (toString (now_user clk)) USER
            (userContent (trim (inputValue s)) (pendingImage s)) (date_user clk) None.

Definition botMessageId (clk : Clock) : jsstring := toString (now_agent clk + 1).

Definition botMessage (clk : Clock) : Message :=
  mkMessage (botMessageId clk) AGENT [] (date_agent clk) (Some true).

Definition handleSendMessage (s : State) (clk : Clock) : Task :=
  if rejected s
  then Done
  else
    let userText := trim (inputValue s) in
    let currentPendingImage := pendingImage s in
    let forceImageGen := isImageMode s in
    let userMessage := userMessage s clk in
    let botMessageId := botMessageId clk in
    let botMessage := botMessage clk in
    let finally := SetIsTyping false ;; Done in
    let catch (e : Thrown) :=
      ConsoleError e ;;
      PatchMessage botMessageId [textPart failureText] false ;;
      finally in
    let imagePath (confirmationText : jsstring) :=
      PatchMessage botMessageId [textPart confirmationText] true ;;
      Await (GenerateImage userText) (fun settled =>
        match settled with
        | Resolved imageUrl =>
            PatchMessage botMessageId
              [textPart confirmationText; imagePart imageUrl] false ;;
            finally
        | Rejected => catch Rejection
        end) in
    let textPath :=
      match history_of (messages s) with
      | None => catch TypeError
      | Some history =>
          Await (GenerateTextResponse (or_else userText defaultPrompt) (Some history)
                                      (or_undefined currentPendingImage))
                (fun settled =>
                   match settled with
                   | Resolved textResponse =>
                       PatchMessage botMessageId [textPart textResponse] false ;;
                       finally
                   | Rejected => catch Rejection
                   end)
      end in
    SetInputValue [] ;;
    SetPendingImage None ;;
    SetIsImageMode false ;;
    (* recognitionRef.current?.stop(), a no-op on a null ref *)
    (if isListening s then Do StopRecognition else fun k => k)
    (AppendMessage userMessage ;;
     SetIsTyping true ;;
     AppendMessage botMessage ;;
     isImageRequest currentPendingImage forceImageGen userText (fun request =>
       if request
       then
         if forceImageGen
         then imagePath (acknowledgement userText)
         else Await (GenerateTextResponse (confirmationPrompt userText) None None)
                    (fun settled =>
                       match settled with
                       | Resolved confirmationText => imagePath confirmationText
                       | Rejected => catch Rejection
                       end)
       else textPath)).

(** The other handlers that touch the turn list. *)
Definition handleUpdateMessage (messageId : jsstring) (updatedContent : list Part) : Task :=
  UpdateContent messageId updatedContent ;; Done.

Definition clearChat (confirmed : bool) : Task :=
  if confirmed then ClearMessages ;; Done else Done.

(** ** [exportChatHistory] (lines 213-244) *)

(** The locale-dependent renderings of a [Date]. *)
Record Locale : Type := mkLocale {
  toLocaleString : Z -> jsstring;
  toLocaleTimeString : Z -> jsstring;
  toISOString : Z -> jsstring
}.

Definition APP_NAME : jsstring := js "Nano Banana Agent".

(** A value interpolated in a template literal. *)
Definition interpolate (o : option jsstring) : jsstring :=
  match o with
  | Some x => x
  | None => js "undefined"
  end.

Definition roleName (r : Role) : jsstring :=
  match r with
  | USER => js "USER"
  | AGENT => js "NANO BANANA"
  end.

(** The body of [msg.content.forEach], on the accumulated text. *)
Definition appendPart (textContent : jsstring) (part : Part) : jsstring :=
  let textContent :=
    match field (text part) with
    | Some t => textContent ++ t ++ newline
    | None => textContent
    end in
  match field (image part) with
  | Some _ => textContent ++ js "[Generated Image Attached]" ++ newline
  | None => textContent
  end.

(** The body of [messages.forEach]. *)
Definition appendMessage (loc : Locale) (textContent : jsstring) (msg : Message)
  : jsstring :=
  let time := toLocaleTimeString loc (timestamp msg) in
  let textContent :=
    textContent ++ js "[" ++ time ++ js "] " ++ roleName (role msg) ++ js ":" ++ newline in
  let textContent := fold_left appendPart (content msg) textContent in
  textContent ++ newline.

Definition exportHeader (loc : Locale) (today : Z) : jsstring :=
  let textContent := APP_NAME ++ js " - Conversation Export" ++ newline in
  let textContent := textContent ++ js "Date: " ++ toLocaleString loc today ++ newline in
  textContent ++ js "-------------------------------------------" ++ newline ++ newline.

(** The blob, the temporary link and its click are one [Download];
    [today] and [stamp] are the two readings of [new Date()]. *)
Definition exportChatHistory (loc : Locale) (today stamp : Z) (s : State) : Task :=
  if Nat.eqb (List.length (messages s)) 0
  then Alert (js "No messages to export.") ;; Done
  else
    let textContent := fold_left (appendMessage loc) (messages s) (exportHeader loc today) in
    Download (js "nano-banana-chat-"
              ++ interpolate (at_index (split 84 (toISOString loc stamp)) 0)
              ++ js ".txt")
             textContent ;;
    Done.

(** ** Running a task *)

(** The AI client: the intent classifier is synchronous and total, the
    two generators settle one way or the other. *)
Record Gemini : Type := mkGemini {
  shouldGenerateImage : jsstring -> bool;
  generateTextResponse : jsstring -> option (list Content) -> option jsstring -> Outcome;
  generateImage : jsstring -> Outcome
}.

Definition settle (g : Gemini) (c : AsyncCall) : Outcome :=
  match c with
  | GenerateTextResponse p h a => generateTextResponse g p h a
  | GenerateImage p => generateImage g p
  end.

Inductive Event : Type :=
| Performed (a : Action)
| Asked (t : jsstring)
| Called (c : AsyncCall)
| Answered (o : Outcome).

(** Everything one handler invocation does, in order, against a client. *)
Fixpoint exec (g : Gemini) (t : Task) : list Event :=
  match t with
  | Done => []
  | Do a k => Performed a :: exec g k
  | Classify x k => Asked x :: exec g (k (shouldGenerateImage g x))
  | Await c k => Called c :: Answered (settle g c) :: exec g (k (settle g c))
  end.

Definition observe (s : State) (e : Event) : State :=
  match e with
  | Performed a => apply a s
  | _ => s
  end.

(** The state once the events have happened. *)
Definition after (evs : list Event) (s : State) : State := fold_left observe evs s.

Definition is_call (e : Event) : bool :=
  match e with
  | Asked _ | Called _ => true
  | _ => false
  end.

(** The image path shows its acknowledgement on the still pending turn and
    calls the generator; its acknowledgement request carries no history.
    The text path builds the history (which may throw) and sends it. *)
Definition image_path_event (e : Event) : bool :=
  match e with
  | Performed (PatchMessage _ _ true) => true
  | Called (GenerateImage _) => true
  | Called (GenerateTextResponse _ None _) => true
  | _ => false
  end.

Definition text_path_event (e : Event) : bool :=
  match e with
  | Called (GenerateTextResponse _ (Some _) _) => true
  | Performed (ConsoleError TypeError) => true
  | _ => false
  end.

(** ** The application as an event-driven machine *)

(** The live state and the exchanges suspended at an [await]. *)
Record App : Type := mkApp {
  ui : State;
  suspended : list (Outcome -> Task)
}.

Definition boot : App := mkApp initial [].

(** Run a task up to its next suspension point. *)
Fixpoint run_sync (should : jsstring -> bool) (t : Task) (s : State)
  : State * option (Outcome -> Task) :=
  match t with
  | Done => (s, None)
  | Do a k => run_sync should k (apply a s)
  | Classify x k => run_sync should (k (should x)) s
  | Await _ k => (s, Some k)
  end.

Definition to_list {A : Type} (o : option A) : list A :=
  match o with
  | Some x => [x]
  | None => []
  end.

Inductive AppEvent : Type :=
| Typed (v : jsstring)
| ImageMode (b : bool)
| Listening (b : bool)
| Attached (v : option jsstring)
| Edited (i : jsstring) (c : list Part)
| Cleared
| Submitted (clk : Clock)
| Settled (n : nat) (o : Outcome).

(** Each handler reads the state of the latest render. *)
Definition app_step (should : jsstring -> bool) (a : App) (e : AppEvent) : App :=
  match e with
  | Typed v => mkApp (apply (SetInputValue v) (ui a)) (suspended a)
  | ImageMode b => mkApp (apply (SetIsImageMode b) (ui a)) (suspended a)
  | Listening b => mkApp (apply (SetIsListening b) (ui a)) (suspended a)
  | Attached v => mkApp (apply (SetPendingImage v) (ui a)) (suspended a)
  | Edited i c =>
      mkApp (fst (run_sync should (handleUpdateMessage i c) (ui a))) (suspended a)
  | Cleared => mkApp (fst (run_sync should (clearChat true) (ui a))) (suspended a)
  | Submitted clk =>
      let r := run_sync should (handleSendMessage (ui a) clk) (ui a) in
      mkApp (fst r) (suspended a ++ to_list (snd r))
  | Settled n o =>
      match at_index (suspended a) n with
      | None => a
      | Some k =>
          let r := run_sync should (k o) (ui a) in
          mkApp (fst r) (firstn n (suspended a) ++ to_list (snd r)
                         ++ skipn (S n) (suspended a))
      end
  end.

Definition app_run (should : jsstring -> bool) (evs : list AppEvent) : App :=
  fold_left (app_step should) evs boot.

Definition pending (m : Message) : bool :=
  match isPending m with
  | Some true => true
  | _ => false
  end.

(** ** Observations, the data model and the invariant *)

(** An event that leaves the input text, the attachment and the image
    mode alone. *)
Definition keeps_inputs (e : Event) : Prop :=
  match e with
  | Performed (SetInputValue _)
  | Performed (SetPendingImage _)
  | Performed (SetIsImageMode _) => False
  | _ => True
  end.

(** [u.startsWith(p)]. *)
Fixpoint starts_with (p u : jsstring) : bool :=
  match p, u with
  | [], _ => true
  | x :: p', y :: u' => (x =? y) && starts_with p' u'
  | _ :: _, [] => false
  end.

(** Modelled from the spec: the data model gives an image part as
    [{image: data-URI}]; a turn list follows it when every image it
    carries starts with [data:]. *)
Definition part_ok (p : Part) : bool :=
  match field (image p) with
  | Some u => starts_with (js "data:") u
  | None => true
  end.

(** Every part of every turn follows the data model. *)
Definition data_model (msgs : list Message) : bool :=
  forallb (fun m => forallb part_ok (content m)) msgs.

(** An awaited capability call. *)
Definition is_async (e : Event) : bool :=
  match e with
  | Called _ => true
  | _ => false
  end.

(** Ten completed turns, alternating user and agent. *)
Definition sample_turns : list Message :=
  List.map (fun n => mkMessage (toString (Z.of_nat n))
                       (if Nat.even n then USER else AGENT)
                       [textPart (toString (Z.of_nat n))] (Z.of_nat n) (Some false))
           (seq 0 10).

(** A mutation of a turn already in the list. *)
Definition is_patch (e : Event) : bool :=
  match e with
  | Performed (PatchMessage _ _ _) => true
  | _ => false
  end.

(** The transcript in the words of the spec: a part is rendered as its
    text or as the image placeholder, one per line. *)
Definition transcript_part (p : Part) : jsstring :=
  match field (text p) with
  | Some t => t ++ newline
  | None => []
  end
  ++ match field (image p) with
     | Some _ => js "[Generated Image Attached]" ++ newline
     | None => []
     end.

(** A block: the time of the turn and its role label, the parts, a blank
    line. *)
Definition transcript_block (loc : Locale) (m : Message) : jsstring :=
  js "[" ++ toLocaleTimeString loc (timestamp m) ++ js "] "
  ++ match role m with USER => js "USER" | AGENT => js "NANO BANANA" end
  ++ js ":" ++ newline
  ++ List.concat (List.map transcript_part (content m)) ++ newline.

(** A task that only mutates the turn [bid], never sets [isTyping] before
    its end, and on every branch ends by finalising [bid] and then
    clearing [isTyping]. *)
Inductive finishes (bid : jsstring) : Task -> Prop :=
| finishes_final c :
    finishes bid (PatchMessage bid c false ;; SetIsTyping false ;; Done)
| finishes_patch c p k :
    finishes bid k -> finishes bid (PatchMessage bid c p ;; k)
| finishes_log e k :
    finishes bid k -> finishes bid (ConsoleError e ;; k)
| finishes_classify t k :
    (forall b, finishes bid (k b)) -> finishes bid (Classify t k)
| finishes_await call k :
    (forall o, finishes bid (k o)) -> finishes bid (Await call k).

(** Every pending turn of the list carries the id [bid]. *)
Definition only_pending (bid : jsstring) (msgs : list Message) : Prop :=
  forall m, In m msgs -> pending m = true -> id m = bid.

(** Idle with no pending turn, or exactly one suspended exchange that
    owns every pending turn and will finalise it. *)
Definition app_inv (a : App) : Prop :=
  match suspended a with
  | [] => isTyping (ui a) = false /\ existsb pending (messages (ui a)) = false
  | [k] =>
      isTyping (ui a) = true /\
      exists bid, only_pending bid (messages (ui a)) /\ forall o, finishes bid (k o)
  | _ => False
  end.

(** The same, on the result of running a task to its next suspension. *)
Definition settled_inv (bid : jsstring) (r : State * option (Outcome -> Task)) : Prop :=
  match snd r with
  | None => isTyping (fst r) = false /\ existsb pending (messages (fst r)) = false
  | Some k =>
      isTyping (fst r) = true /\ only_pending bid (messages (fst r)) /\
      forall o, finishes bid (k o)
  end.

(** ** The other handlers and view conditions of [App] *)

(** The [disabled] attribute of the send button (line 419). *)
Definition sendDisabled (s : State) : bool :=
  (negb (truthy (trim (inputValue s))) && negb (truthy_opt (pendingImage s)))
  || isTyping s.

(** The condition of its highlighted style (line 421). *)
Definition sendActive (s : State) : bool :=
  (truthy (trim (inputValue s)) || truthy_opt (pendingImage s)) && negb (isTyping s).

(** [s.includes(search)]. *)
Fixpoint includes (s search : jsstring) : bool :=
  starts_with search s
  || match s with
     | [] => false
     | _ :: r => includes r search
     end.

(** The four suggestions of the empty conversation (lines 331-336). *)
Definition suggestions : list jsstring :=
  [js "Visualize a cyberpunk city"; js "Imagine a robotic honeybee";
   js "Explain quantum computing"; js "Code a glassmorphic button"].

(** The [onClick] of a suggestion (lines 339-342). *)
Definition suggestionClick (suggestion : jsstring) : Task :=
  (if includes suggestion (js "Visualize") || includes suggestion (js "Imagine")
   then Do (SetIsImageMode true) else fun k => k)
  (SetInputValue suggestion ;; Done).

(** [handleFileChange] (lines 196-205): [file] is [e.target.files?.[0]]
    together with what the reader holds at [onloadend] ([null] when the
    read failed). *)
Definition handleFileChange (file : option (option jsstring)) : Task :=
  match file with
  | Some result => SetPendingImage result ;; Done
  | None => Done
  end.

(** What the speech handlers do: state setters, and requests to the
    recognizer that [Action] has no name for. *)
Inductive SpeechCommand : Type :=
| Act (a : Action)
| StartRecognition
| LogSpeechError.

(** [toggleListening] (lines 79-91); [recognitionRef] tells whether the
    ref holds a recognizer. *)
Definition toggleListening (recognitionRef : bool) (s : State) : list SpeechCommand :=
  if negb recognitionRef
  then [Act (Alert (js "Speech recognition is not supported in your browser."))]
  else if isListening s
       then [Act StopRecognition]
       else [Act (SetIsListening true); StartRecognition].

(** The recognizer callbacks (lines 60-73); the updater of [onresult]
    reads the input value that is current when it runs. *)
Definition onresult (transcript : jsstring) (s : State) : list SpeechCommand :=
  [Act (SetInputValue (if truthy (inputValue s)
                       then inputValue s ++ js " " ++ transcript
                       else transcript));
   Act (SetIsListening false)].

Definition onerror : list SpeechCommand := [LogSpeechError; Act (SetIsListening false)].

Definition onend : list SpeechCommand := [Act (SetIsListening false)].

Definition speech_step (s : State) (c : SpeechCommand) : State :=
  match c with
  | Act a => apply a s
  | _ => s
  end.

Definition speech_run (cmds : list SpeechCommand) (s : State) : State :=
  fold_left speech_step cmds s.

(** Run a handler that has no suspension point of its own. *)
Definition perform (t : Task) (s : State) : State :=
  fst (run_sync (fun _ => false) t s).

(** ** Further observations *)

Definition is_asked (e : Event) : bool :=
  match e with
  | Asked _ => true
  | _ => false
  end.

Definition is_image_call (e : Event) : bool :=
  match e with
  | Called (GenerateImage _) => true
  | _ => false
  end.

Definition count {A : Type} (p : A -> bool) (xs : list A) : nat :=
  List.length (filter p xs).

(** The roles of [n] complete exchanges. *)
Fixpoint exchanges (n : nat) : list Role :=
  match n with
  | O => []
  | S n' => USER :: AGENT :: exchanges n'
  end.

(** The events that settle an awaited call. *)
Definition is_settlement (e : AppEvent) : bool :=
  match e with
  | Settled _ _ => true
  | _ => false
  end.

(** * Properties *)

Arguments js : simpl never.
Arguments toString : simpl never.
Arguments trim : simpl never.
Arguments history_of : simpl never.

(** ** Strings *)

Lemma eqb_str_eq (a b : jsstring) : eqb_str a b = true <-> a = b.
Proof.
  revert b; induction a as [|x a IH]; intros [|y b]; simpl; split;
    try congruence; try reflexivity.
  - intros H. apply andb_true_iff in H as [Hx Hr].
    apply N.eqb_eq in Hx. apply IH in Hr. congruence.
  - intros H. injection H as -> ->. rewrite N.eqb_refl. simpl. now apply IH.
Qed.

Lemma eqb_str_refl (a : jsstring) : eqb_str a a = true.
Proof. now apply eqb_str_eq. Qed.

Lemma eqb_str_neq (a b : jsstring) : a <> b -> eqb_str a b = false.
Proof.
  intros H. destruct (eqb_str a b) eqn:E; [|reflexivity].
  apply eqb_str_eq in E. contradiction.
Qed.

Lemma js_inj (a b : string) : js a = js b -> a = b.
Proof.
  unfold js. revert b. induction a as [|x a IH]; intros [|y b]; simpl;
    try congruence.
  intros H. injection H as Hx Hr.
  f_equal; [|now apply IH].
  rewrite <- (ascii_N_embedding x), <- (ascii_N_embedding y). now rewrite Hx.
Qed.

Lemma to_int_proper (z : Z) :
  Z.to_int z <> Decimal.Pos Decimal.Nil /\ Z.to_int z <> Decimal.Neg Decimal.Nil.
Proof.
  destruct z as [|p|p]; simpl; split; try discriminate.
  - intros H. injection H as H. now apply (Unsigned.to_uint_nonnil p).
  - intros H. injection H as H. now apply (Unsigned.to_uint_nonnil p).
Qed.

(** Distinct clock readings give distinct ids. *)
Lemma toString_inj (a b : Z) : toString a = toString b -> a = b.
Proof.
  unfold toString. intros H. apply js_inj in H.
  assert (Hi : Z.to_int a = Z.to_int b).
  { destruct (to_int_proper a) as [Ha1 Ha2], (to_int_proper b) as [Hb1 Hb2].
    pose proof (NilZero.isi (Z.to_int a) Ha1 Ha2) as Ea.
    pose proof (NilZero.isi (Z.to_int b) Hb1 Hb2) as Eb.
    rewrite H in Ea. congruence. }
  rewrite <- (DecimalZ.of_to a), <- (DecimalZ.of_to b). now rewrite Hi.
Qed.

Lemma split_nonempty (sep : N) (s : jsstring) : split sep s <> [].
Proof.
  induction s as [|c r IH]; simpl; [discriminate|].
  destruct (c =? sep); [discriminate|].
  destruct (split sep r); [contradiction|discriminate].
Qed.

(** A string without the separator is a single segment. *)
Lemma split_without (sep : N) (s : jsstring) :
  ~ In sep s -> split sep s = [s].
Proof.
  induction s as [|c r IH]; simpl; intros H; [reflexivity|].
  destruct (N.eqb_spec c sep) as [->|Hne]; [exfalso; now apply H; left|].
  rewrite IH; [reflexivity|]. intros Hin. apply H. now right.
Qed.

(** The first segment ends at the first separator. *)
Lemma split_at_first (sep : N) (a b : jsstring) :
  ~ In sep a -> split sep (a ++ sep :: b) = a :: split sep b.
Proof.
  induction a as [|c r IH]; simpl; intros H.
  - now rewrite N.eqb_refl.
  - destruct (N.eqb_spec c sep) as [->|Hne]; [exfalso; now apply H; left|].
    rewrite IH; [reflexivity|]. intros Hin. apply H. now right.
Qed.

Example trim_sample : trim (js "  hi there " ++ [9; 10]) = js "hi there".
Proof. reflexivity. Qed.

Example trim_blank : trim [32; 160; 8195; 10; 65279] = [].
Proof. reflexivity. Qed.

Example split_sample : split comma (js "a,b,,c") = [js "a"; js "b"; []; js "c"].
Proof. reflexivity. Qed.

Example toString_sample : toString 1730541480000 = js "1730541480000".
Proof. reflexivity. Qed.

(** An image that is not a URI makes the history mapping throw. *)
Example requestPart_throws : requestPart (imagePart (js "abc")) = None.
Proof. reflexivity. Qed.

(** ** Running *)

Lemma after_app (a b : list Event) (s : State) :
  after (a ++ b) s = after b (after a s).
Proof. unfold after. apply fold_left_app. Qed.

(** Case analysis on everything a run of the handler branches on. *)
Ltac branch :=
  repeat match goal with
    | |- context [if ?b then _ else _] => destruct b eqn:?; cbn
    | |- context [match ?x with _ => _ end] => destruct x eqn:?; cbn
    end.

Ltac enter_handler H :=
  unfold handleSendMessage, isImageRequest; rewrite H; cbn.

Arguments userMessage : simpl never.
Arguments botMessageId : simpl never.
Arguments botMessage : simpl never.

(** ** Submission guard *)

(** C4: a submission whose trimmed text is empty and that carries no
    attached image is rejected: the handler does nothing at all, so no
    capability is called and the state, with its turn list, is unchanged. *)
Theorem empty_submission_is_noop
  (s : State) (clk : Clock) (g : Gemini) (should : jsstring -> bool)
  (susp : list (Outcome -> Task)) :
  trim (inputValue s) = [] ->
  truthy_opt (pendingImage s) = false ->
  handleSendMessage s clk = Done /\
  exec g (handleSendMessage s clk) = [] /\
  after (exec g (handleSendMessage s clk)) s = s /\
  app_step should (mkApp s susp) (Submitted clk) = mkApp s susp.
Proof.
  intros Ht Hi.
  assert (E : handleSendMessage s clk = Done).
  { unfold handleSendMessage, rejected. now rewrite Ht, Hi. }
  unfold app_step. cbn [ui suspended]. rewrite E. cbn.
  rewrite app_nil_r. repeat split.
Qed.

Lemma empty_submission_is_noop_witness :
  let s := mkState [] (js "   ") false true false None in
  let clk := mkClock 1000 1000 1000 1000 in
  let g := mkGemini (fun _ => true) (fun _ _ _ => Rejected) (fun _ => Rejected) in
  trim (inputValue s) = [] /\ truthy_opt (pendingImage s) = false /\
  handleSendMessage s clk = Done /\ exec g (handleSendMessage s clk) = [].
Proof.
  intros s clk g. split; [reflexivity|]. split; [reflexivity|].
  destruct (empty_submission_is_noop s clk g (fun _ => true) [] eq_refl eq_refl)
    as (H1 & H2 & _).
  exact (conj H1 H2).
Defined.

(** ** Choice of the path *)

(** C1: an accepted submission takes the image path exactly when no image
    is attached and either the image mode is on or the intent classifier
    accepts the trimmed text; otherwise it takes the text path, and it
    does so in particular whenever an image is attached. *)
Theorem image_path_iff (s : State) (clk : Clock) (g : Gemini) :
  rejected s = false ->
  let evs := exec g (handleSendMessage s clk) in
  (existsb image_path_event evs = true <->
     truthy_opt (pendingImage s) = false /\
     (isImageMode s = true \/ shouldGenerateImage g (trim (inputValue s)) = true)) /\
  existsb text_path_event evs = negb (existsb image_path_event evs) /\
  (truthy_opt (pendingImage s) = true ->
     existsb image_path_event evs = false /\ existsb text_path_event evs = true).
Proof.
  intros Hacc. enter_handler Hacc.
  destruct (isListening s), (truthy_opt (pendingImage s)), (isImageMode s); cbn;
    try destruct (shouldGenerateImage g (trim (inputValue s))); cbn;
    branch; intuition congruence.
Qed.

Lemma image_path_iff_witness :
  let s := mkState [] (js "draw a cat") false false false None in
  let g := mkGemini (fun _ => true) (fun _ _ _ => Resolved (js "On it."))
                    (fun _ => Resolved (js "data:image/png;base64,AAAA")) in
  rejected s = false /\
  existsb image_path_event (exec g (handleSendMessage s (mkClock 5 5 6 6))) = true.
Proof.
  intros s g. split; [reflexivity|].
  apply (image_path_iff s (mkClock 5 5 6 6) g); [reflexivity|].
  split; [reflexivity|right; reflexivity].
Defined.

(** ** Reset of the composer *)

Lemma keeps_inputs_after (evs : list Event) (s : State) :
  Forall keeps_inputs evs ->
  inputValue (after evs s) = inputValue s /\
  pendingImage (after evs s) = pendingImage s /\
  isImageMode (after evs s) = isImageMode s.
Proof.
  intros H. revert s. induction H as [|e evs He _ IH]; intros s; [now cbn|].
  change (after (e :: evs) s) with (after evs (observe s e)).
  destruct (IH (observe s e)) as (-> & -> & ->).
  destruct e as [a| | |]; try (cbn; tauto).
  destruct a; cbn in *; tauto.
Qed.

Lemma Forall_prefix {A : Type} (P : A -> Prop) (n : nat) (l : list A) :
  Forall P l -> Forall P (firstn n l).
Proof.
  intros H. revert n. induction H as [|x l Hx _ IH]; intros [|n]; cbn;
    constructor; auto.
Qed.

(** C10: an accepted submission starts by clearing the input text, the
    attachment and the image mode, before anything is called; that reset
    touches no other cell of the state, and the three stay cleared for
    the rest of the exchange, so the image mode that was on serves this
    submission only. *)
Theorem reset_on_accept (s : State) (clk : Clock) (g : Gemini) :
  rejected s = false ->
  let evs := exec g (handleSendMessage s clk) in
  firstn 3 evs = [Performed (SetInputValue []);
                  Performed (SetPendingImage None);
                  Performed (SetIsImageMode false)] /\
  (let s1 := after (firstn 3 evs) s in
   inputValue s1 = [] /\ pendingImage s1 = None /\ isImageMode s1 = false /\
   messages s1 = messages s /\ isTyping s1 = isTyping s /\
   isListening s1 = isListening s) /\
  (forall n, 3 <= n ->
     let sn := after (firstn n evs) s in
     inputValue sn = [] /\ pendingImage sn = None /\ isImageMode sn = false)%nat.
Proof.
  intros Hacc evs.
  assert (E : exists rest,
             evs = Performed (SetInputValue []) :: Performed (SetPendingImage None)
                   :: Performed (SetIsImageMode false) :: rest
             /\ Forall keeps_inputs rest).
  { subst evs. enter_handler Hacc. eexists. split; [reflexivity|].
    destruct (isListening s), (truthy_opt (pendingImage s)), (isImageMode s); cbn;
      branch; repeat constructor. }
  destruct E as (rest & -> & Hrest).
  split; [reflexivity|]. split; [cbn; tauto|].
  intros [|[|[|n]]] Hn; try lia. cbn [firstn].
  change (after (?a :: ?b :: ?c :: ?l) s)
    with (after l (observe (observe (observe s a) b) c)).
  destruct (keeps_inputs_after (firstn n rest)
              (observe (observe (observe s (Performed (SetInputValue [])))
                                (Performed (SetPendingImage None)))
                       (Performed (SetIsImageMode false))))
    as (-> & -> & ->); [now apply Forall_prefix|].
  cbn. tauto.
Qed.

Lemma reset_on_accept_witness :
  let s := mkState [] (js "a cyberpunk city") false true true None in
  let g := mkGemini (fun _ => false) (fun _ _ _ => Rejected)
                    (fun _ => Resolved (js "data:image/png;base64,AAAA")) in
  rejected s = false /\
  isImageMode (after (exec g (handleSendMessage s (mkClock 7 7 7 7))) s) = false.
Proof.
  intros s g. split; [reflexivity|].
  pose proof (reset_on_accept s (mkClock 7 7 7 7) g eq_refl) as (_ & _ & H).
  exact (proj2 (proj2 (H 20%nat ltac:(cbv; repeat constructor)))).
Defined.

(** ** History mapping *)

Ltac literal l := let v := eval vm_compute in l in change l with v.

Ltac absent :=
  repeat (rewrite in_app_iff || (progress cbn [In]));
  unfold comma, colon, semicolon in *;
  intuition (try discriminate).

Lemma field_truthy (u : jsstring) : truthy u = true -> field (Some u) = Some u.
Proof. intros H. cbn. now rewrite H. Qed.

(** C7: in the history mapping a text part becomes [{text}], and an image
    part whose URI is [data:<mime>;base64,<data>] (a MIME type holds none
    of the separators [,], [:], [;], a base64 payload holds no [,])
    becomes [{inlineData: {data, mimeType}}] with the declared MIME type
    and the payload without the header. *)
Theorem history_part_mapping :
  (forall t, requestPart (textPart t) = Some (ReqText t)) /\
  (forall t u, truthy t = true -> requestPart (mkPart (Some t) u) = Some (ReqText t)) /\
  (forall txt mime data,
      field txt = None ->
      ~ In comma mime -> ~ In colon mime -> ~ In semicolon mime ->
      ~ In comma data ->
      requestPart (mkPart txt (Some (js "data:" ++ mime ++ js ";base64," ++ data)))
      = Some (ReqInlineData (Some data) (Some mime))).
Proof.
  split; [|split].
  - intros [|c t]; reflexivity.
  - intros t u H. unfold requestPart. cbn. now rewrite H.
  - intros txt mime data Htxt Hc Hcol Hsemi Hd.
    assert (E : js "data:" ++ mime ++ js ";base64," ++ data
                = ([100; 97; 116; 97] ++ colon :: mime ++ semicolon :: [98; 97; 115; 101; 54; 52])
                    ++ comma :: data).
    { literal (js "data:"). literal (js ";base64,").
      cbn. rewrite <- app_assoc. reflexivity. }
    unfold requestPart. cbn [text image]. rewrite Htxt, E.
    rewrite field_truthy by reflexivity.
    rewrite split_at_first by absent.
    rewrite (split_without comma data) by assumption.
    unfold at_index. cbn [nth_error].
    rewrite split_at_first by absent.
    rewrite (split_without colon) by absent.
    cbn [nth_error].
    rewrite split_at_first by assumption.
    reflexivity.
Qed.

Lemma history_part_mapping_witness :
  requestPart (imagePart (js "data:image/png;base64,iVBORw0KGgo="))
  = Some (ReqInlineData (Some (js "iVBORw0KGgo=")) (Some (js "image/png"))).
Proof.
  exact (proj2 (proj2 history_part_mapping) None (js "image/png") (js "iVBORw0KGgo=")
           eq_refl
           ltac:(vm_compute; intuition discriminate)
           ltac:(vm_compute; intuition discriminate)
           ltac:(vm_compute; intuition discriminate)
           ltac:(vm_compute; intuition discriminate)).
Defined.

(** ** Data model of the turn list *)

Lemma starts_with_spec (p u : jsstring) :
  starts_with p u = true -> exists r, u = p ++ r.
Proof.
  revert u. induction p as [|x p IH]; intros u H; [now exists u|].
  destruct u as [|y u]; [discriminate|]. cbn in H.
  apply andb_true_iff in H as [Hx H]. apply N.eqb_eq in Hx. subst y.
  destruct (IH u H) as [r ->]. now exists r.
Qed.

Lemma requestPart_total (p : Part) :
  part_ok p = true -> exists r, requestPart p = Some r.
Proof.
  unfold part_ok, requestPart. intros H.
  destruct (field (text p)); [eauto|].
  destruct (field (image p)) as [u|]; [|eauto].
  apply starts_with_spec in H as [r ->].
  change (js "data:") with [100; 97; 116; 97; 58].
  unfold at_index. cbn.
  destruct (split comma r) as [|h t] eqn:E; [now apply split_nonempty in E|].
  cbn. destruct (split colon h) as [|h' t'] eqn:E'; [now apply split_nonempty in E'|].
  cbn. eauto.
Qed.

Lemma traverse_total {A B : Type} (f : A -> option B) (xs : list A) :
  Forall (fun x => exists y, f x = Some y) xs -> exists ys, traverse f xs = Some ys.
Proof.
  induction 1 as [|x xs [y Hy] _ [ys IH]]; cbn; [eauto|].
  rewrite Hy, IH. eauto.
Qed.

Lemma traverse_Forall2 {A B : Type} (f : A -> option B) (xs : list A) (ys : list B) :
  traverse f xs = Some ys -> Forall2 (fun x y => f x = Some y) xs ys.
Proof.
  revert ys. induction xs as [|x xs IH]; cbn; intros ys H.
  - injection H as <-. constructor.
  - destruct (f x) as [y|] eqn:E; [|discriminate].
    destruct (traverse f xs) as [ys'|]; [|discriminate].
    injection H as <-. constructor; auto.
Qed.

Lemma Forall_suffix {A : Type} (P : A -> Prop) (n : nat) (l : list A) :
  Forall P l -> Forall P (skipn n l).
Proof.
  intros H. rewrite <- (firstn_skipn n l) in H.
  apply Forall_app in H. tauto.
Qed.

(** On a turn list that follows the data model the history never throws. *)
Lemma history_total (msgs : list Message) :
  data_model msgs = true -> exists h, history_of msgs = Some h.
Proof.
  intros H. unfold history_of, slice_last. apply traverse_total.
  apply Forall_suffix. unfold data_model in H.
  rewrite forallb_forall in H. apply Forall_forall. intros m Hm.
  unfold requestContent.
  destruct (traverse_total requestPart (content m)) as [ps ->]; [|eauto].
  apply Forall_forall. intros p Hp. apply requestPart_total.
  specialize (H m Hm). rewrite forallb_forall in H. auto.
Qed.

Lemma slice_last_spec {A : Type} (n : nat) (xs : list A) :
  exists older, xs = older ++ slice_last n xs /\
                List.length (slice_last n xs) = Nat.min n (List.length xs).
Proof.
  exists (firstn (List.length xs - n) xs). unfold slice_last. split.
  - now rewrite firstn_skipn.
  - rewrite length_skipn. lia.
Qed.

(** ** Text path *)

Ltac cut_at_call :=
  first [ eexists [_; _; _; _; _; _], _; split; [reflexivity|]
        | eexists [_; _; _; _; _; _; _], _; split; [reflexivity|]
        | eexists [_; _; _; _; _; _; _; _], _; split; [reflexivity|] ].

(** The run of a text-path submission whose history could be built: one
    awaited call, made once both turns of the exchange are in the list. *)
Lemma text_path_run (s : State) (clk : Clock) (g : Gemini) (h : list Content) :
  rejected s = false ->
  truthy_opt (pendingImage s) = true \/
    (isImageMode s = false /\ shouldGenerateImage g (trim (inputValue s)) = false) ->
  history_of (messages s) = Some h ->
  exists pre post,
    exec g (handleSendMessage s clk)
    = pre ++ Called (GenerateTextResponse (or_else (trim (inputValue s)) defaultPrompt)
                                          (Some h) (or_undefined (pendingImage s)))
          :: post /\
    existsb is_async pre = false /\
    existsb is_async post = false /\
    messages (after pre s) = messages s ++ [userMessage s clk; botMessage clk].
Proof.
  intros Hacc Hpath Hh. enter_handler Hacc. rewrite Hh.
  destruct Hpath as [Hi|[Hm Hc]].
  - rewrite Hi. cbn.
    destruct (isListening s); cbn; cut_at_call;
      (split; [reflexivity|]); (split; [branch; reflexivity|]);
      cbn; now rewrite <- app_assoc.
  - rewrite Hm.
    destruct (isListening s), (truthy_opt (pendingImage s)); cbn;
      try rewrite Hc; cbn; cut_at_call;
      (split; [reflexivity|]); (split; [branch; reflexivity|]);
      cbn; now rewrite <- app_assoc.
Qed.

(** C2: on the text path the history handed to the text generator is
    built from the turns that were in the list before the exchange
    appended its own pair: exactly the most recent [min 6 N] of those [N]
    turns, in their order, each as a role ([user] for a user turn,
    [model] for an agent turn) with its mapped parts; the pair of the
    exchange is in the list by then and is not part of the history. *)
Theorem history_window (s : State) (clk : Clock) (g : Gemini) :
  rejected s = false ->
  truthy_opt (pendingImage s) = true \/
    (isImageMode s = false /\ shouldGenerateImage g (trim (inputValue s)) = false) ->
  data_model (messages s) = true ->
  exists older recent h pre prompt attached post,
    messages s = older ++ recent /\
    List.length recent = Nat.min 6 (List.length (messages s)) /\
    Forall2 (fun m c =>
               c_role c = match role m with USER => js "user" | AGENT => js "model" end /\
               traverse requestPart (content m) = Some (parts c))
            recent h /\
    exec g (handleSendMessage s clk)
    = pre ++ Called (GenerateTextResponse prompt (Some h) attached) :: post /\
    existsb is_async pre = false /\
    existsb is_async post = false /\
    messages (after pre s) = older ++ recent ++ [userMessage s clk; botMessage clk].
Proof.
  intros Hacc Hpath Hdm.
  destruct (history_total _ Hdm) as [h Hh].
  destruct (text_path_run s clk g h Hacc Hpath Hh) as (pre & post & He & Hpre & Hpost & Hm).
  destruct (slice_last_spec 6 (messages s)) as (older & Hsplit & Hlen).
  exists older, (slice_last 6 (messages s)), h, pre.
  do 3 eexists. split; [exact Hsplit|]. split; [exact Hlen|].
  split; [|split; [exact He|split; [exact Hpre|split; [exact Hpost|]]]].
  - apply traverse_Forall2 in Hh.
    eapply Forall2_impl; [|exact Hh]. cbn. intros m c Hc.
    unfold requestContent in Hc.
    destruct (traverse requestPart (content m)) as [ps|]; [|discriminate].
    injection Hc as <-. cbn. split; [now destruct (role m)|reflexivity].
  - rewrite Hm. rewrite Hsplit at 1. now rewrite <- app_assoc.
Qed.

Lemma history_window_witness :
  let s := mkState sample_turns (js "hello, how are you") false false false None in
  let g := mkGemini (fun _ => false) (fun _ _ _ => Resolved (js "Fine."))
                    (fun _ => Rejected) in
  rejected s = false /\
  exists older recent h,
    messages s = older ++ recent /\ List.length recent = 6%nat /\
    In (Called (GenerateTextResponse (js "hello, how are you") (Some h) None))
       (exec g (handleSendMessage s (mkClock 50 50 51 51))) /\
    List.length h = 6%nat.
Proof.
  intros s g. split; [reflexivity|].
  destruct (history_window s (mkClock 50 50 51 51) g eq_refl
              (or_intror (conj eq_refl eq_refl)) eq_refl)
    as (older & recent & h & pre & prompt & attached & post
        & Hs & Hl & Hf & He & _ & Hpost & _).
  exists older, recent, h. split; [exact Hs|]. split; [exact Hl|].
  assert (Hlen : List.length h = 6%nat)
    by (rewrite <- (Forall2_length Hf); exact Hl).
  split; [|exact Hlen].
  rewrite He. apply in_or_app. right. left.
  assert (In (Called (GenerateTextResponse prompt (Some h) attached))
             (exec g (handleSendMessage s (mkClock 50 50 51 51))))
    by (rewrite He; apply in_or_app; right; now left).
  vm_compute in H.
  repeat (destruct H as [H|H]; try discriminate H; try now injection H as <- _ <-).
  contradiction.
Defined.

(** C8: on the text path the text generator is called, once, with the
    trimmed user text as prompt, or with the default prompt when that text
    is empty (an image is attached then), with the bounded history, and
    with the attached image when there is one. *)
Theorem text_call_arguments (s : State) (clk : Clock) (g : Gemini) :
  rejected s = false ->
  truthy_opt (pendingImage s) = true \/
    (isImageMode s = false /\ shouldGenerateImage g (trim (inputValue s)) = false) ->
  data_model (messages s) = true ->
  exists h pre prompt attached post,
    history_of (messages s) = Some h /\
    exec g (handleSendMessage s clk)
    = pre ++ Called (GenerateTextResponse prompt (Some h) attached) :: post /\
    existsb is_async pre = false /\
    existsb is_async post = false /\
    (trim (inputValue s) <> [] -> prompt = trim (inputValue s)) /\
    (trim (inputValue s) = [] ->
       prompt = js "What's in this image?" /\ truthy_opt (pendingImage s) = true) /\
    (forall u, pendingImage s = Some u -> u <> [] -> attached = Some u) /\
    (truthy_opt (pendingImage s) = false -> attached = None).
Proof.
  intros Hacc Hpath Hdm.
  destruct (history_total _ Hdm) as [h Hh].
  destruct (text_path_run s clk g h Hacc Hpath Hh) as (pre & post & He & Hpre & Hpost & _).
  exists h, pre. do 3 eexists.
  split; [exact Hh|]. split; [exact He|]. split; [exact Hpre|]. split; [exact Hpost|].
  unfold or_else, or_undefined. repeat split.
  - intros Hne. destruct (trim (inputValue s)); [contradiction|reflexivity].
  - now rewrite H.
  - unfold rejected in Hacc. rewrite H in Hacc. cbn in Hacc.
    apply orb_false_iff in Hacc as [Hacc _]. now apply negb_false_iff in Hacc.
  - intros u -> Hu. destruct u; [contradiction|reflexivity].
  - intros Hn. destruct (pendingImage s) as [u|]; [|reflexivity].
    cbn in Hn. cbn. now rewrite Hn.
Qed.

Lemma text_call_arguments_witness :
  let s := mkState [] (js "   ") false true false
                   (Some (js "data:image/png;base64,AAAA")) in
  let g := mkGemini (fun _ => true) (fun _ _ _ => Resolved (js "A banana."))
                    (fun _ => Rejected) in
  rejected s = false /\
  exists pre post,
    exec g (handleSendMessage s (mkClock 50 50 51 51))
    = pre ++ Called (GenerateTextResponse (js "What's in this image?") (Some [])
                       (Some (js "data:image/png;base64,AAAA"))) :: post.
Proof.
  intros s g. split; [reflexivity|].
  destruct (text_call_arguments s (mkClock 50 50 51 51) g eq_refl
              (or_introl eq_refl) eq_refl)
    as (h & pre & prompt & attached & post & Hh & He & _ & _ & _ & Hp & Ha & _).
  exists pre, post. rewrite He.
  destruct (Hp eq_refl) as [-> _].
  rewrite (Ha _ eq_refl ltac:(discriminate)).
  injection Hh as <-. reflexivity.
Defined.

(** ** Mutations of the agent turn *)

Lemma patch_bot (clk : Clock) (c : list Part) (p : bool) :
  patch (botMessageId clk) c p (botMessage clk)
  = mkMessage (botMessageId clk) AGENT c (date_agent clk) (Some p).
Proof. unfold patch. cbn. now rewrite eqb_str_refl. Qed.

Lemma patch_other (i : jsstring) (c : list Part) (p : bool) (m : Message) :
  id m <> i -> patch i c p m = m.
Proof. intros H. unfold patch. now rewrite eqb_str_neq. Qed.

Lemma patch_id (i : jsstring) (c : list Part) (p : bool) (m : Message) :
  id (patch i c p m) = id m /\ role (patch i c p m) = role m /\
  timestamp (patch i c p m) = timestamp m.
Proof. unfold patch. destruct (eqb_str (id m) i); cbn; tauto. Qed.

Lemma patch_twice (i : jsstring) (c c' : list Part) (p p' : bool) (l : list Message) :
  List.map (patch i c p) (List.map (patch i c' p') l) = List.map (patch i c p) l.
Proof.
  rewrite map_map. apply map_ext. intros m. unfold patch.
  destruct (eqb_str (id m) i) eqn:E; cbn; now rewrite E.
Qed.

(** The mapping updater keeps every turn in its place; it rewrites the
    content of the turns that carry the id and nothing else. *)
Lemma patch_keeps (i : jsstring) (c : list Part) (p : bool) (l : list Message) :
  Forall2 (fun before now =>
             id now = id before /\ role now = role before /\
             timestamp now = timestamp before /\ (id before <> i -> now = before))
          l (List.map (patch i c p) l).
Proof.
  induction l as [|m l IH]; cbn; constructor; [|exact IH].
  destruct (patch_id i c p m) as (-> & -> & ->).
  repeat split. apply patch_other.
Qed.

Ltac settle_messages :=
  cbn; rewrite ?patch_twice, ?map_app; cbn [List.map];
  rewrite ?patch_bot.

(** C3: whatever happens in an accepted exchange, it ends with
    [isTyping = false]; and when an awaited call rejects, the agent turn
    ends with exactly the failure text and [isPending = false], while the
    earlier turns and the user turn of the exchange are still in the list,
    in their places (the user turn untouched when the clock did not step
    back between the two readings). *)
Theorem failure_is_terminal (s : State) (clk : Clock) (g : Gemini) :
  rejected s = false ->
  let evs := exec g (handleSendMessage s clk) in
  isTyping (after evs s) = false /\
  (In (Answered Rejected) evs ->
   exists earlier,
     messages (after evs s)
     = earlier ++ [mkMessage (botMessageId clk) AGENT
                     [textPart (js "The generation failed. Please refine your prompt and try again.")]
                     (date_agent clk) (Some false)] /\
     Forall2 (fun before now =>
                id now = id before /\ role now = role before /\
                timestamp now = timestamp before /\
                (id before <> botMessageId clk -> now = before))
             (messages s ++ [userMessage s clk]) earlier /\
     ((now_user clk <= now_agent clk)%Z -> In (userMessage s clk) earlier)).
Proof.
  intros Hacc evs. subst evs. enter_handler Hacc.
  assert (Huser : (now_user clk <= now_agent clk)%Z ->
                  patch (botMessageId clk) [textPart failureText] false (userMessage s clk)
                  = userMessage s clk).
  { intros Hle. apply patch_other. cbn. unfold botMessageId.
    intros E. apply toString_inj in E. lia. }
  destruct (isListening s), (truthy_opt (pendingImage s)), (isImageMode s); cbn;
    try destruct (shouldGenerateImage g (trim (inputValue s))); cbn;
    branch; (split; [reflexivity|]);
    intros Hin; cbn in Hin;
    try (exfalso; intuition discriminate);
    settle_messages;
    (eexists; split; [reflexivity|]; split;
     [apply Forall2_app; [apply patch_keeps|apply (patch_keeps _ _ _ [_])]
     |intros Hle; apply in_or_app; right; left; now apply Huser]).
Qed.

Lemma failure_is_terminal_witness :
  let s := mkState [] (js "a cyberpunk city") false true false None in
  let g := mkGemini (fun _ => false) (fun _ _ _ => Rejected) (fun _ => Rejected) in
  let evs := exec g (handleSendMessage s (mkClock 50 50 51 51)) in
  rejected s = false /\ In (Answered Rejected) evs /\
  isTyping (after evs s) = false /\
  exists earlier,
    messages (after evs s)
    = earlier ++ [mkMessage (js "52") AGENT
                    [textPart (js "The generation failed. Please refine your prompt and try again.")]
                    51%Z (Some false)].
Proof.
  intros s g evs.
  assert (Hin : In (Answered Rejected) evs) by (vm_compute; tauto).
  split; [reflexivity|]. split; [exact Hin|].
  destruct (failure_is_terminal s (mkClock 50 50 51 51) g eq_refl) as [Ht Hf].
  split; [exact Ht|].
  destruct (Hf Hin) as (earlier & Hm & _).
  exists earlier. exact Hm.
Defined.

(** C6: an accepted submission on the image path with the image mode on
    and trimmed text [t], whose image call resolves, acknowledges with the
    fixed template around the literal [t]; the first mutation of the
    agent turn sets its content to that acknowledgement with [isPending]
    still true, before the image generator is called, and the turn ends
    with the acknowledgement followed by the image and [isPending = false]. *)
Theorem forced_image_exchange (s : State) (clk : Clock) (g : Gemini) (result : jsstring) :
  rejected s = false ->
  isImageMode s = true ->
  truthy_opt (pendingImage s) = false ->
  generateImage g (trim (inputValue s)) = Resolved result ->
  let t := trim (inputValue s) in
  let ack := js "Initiating Banana Vision... Crafting high-fidelity visualization for: "
             ++ dquote ++ t ++ dquote in
  let evs := exec g (handleSendMessage s clk) in
  exists opening closing earlier earlier',
    evs = opening
          ++ Performed (PatchMessage (botMessageId clk) [textPart ack] true)
          :: Called (GenerateImage t) :: Answered (Resolved result) :: closing /\
    existsb is_patch opening = false /\
    existsb is_call opening = false /\
    existsb is_call closing = false /\
    messages (after (opening
                     ++ [Performed (PatchMessage (botMessageId clk) [textPart ack] true)]) s)
    = earlier ++ [mkMessage (botMessageId clk) AGENT [textPart ack]
                            (date_agent clk) (Some true)] /\
    messages (after evs s)
    = earlier' ++ [mkMessage (botMessageId clk) AGENT [textPart ack; imagePart result]
                             (date_agent clk) (Some false)] /\
    isTyping (after evs s) = false.
Proof.
  intros Hacc Hmode Himg Hres t ack evs. subst evs t ack.
  enter_handler Hacc. rewrite Hmode, Himg. cbn.
  destruct (isListening s); cbn; rewrite Hres; cbn.
  - exists [Performed (SetInputValue []); Performed (SetPendingImage None);
            Performed (SetIsImageMode false); Performed StopRecognition;
            Performed (AppendMessage (userMessage s clk)); Performed (SetIsTyping true);
            Performed (AppendMessage (botMessage clk))].
    do 3 eexists. split; [reflexivity|]. do 3 (split; [reflexivity|]).
    split; [|split; [|reflexivity]]; settle_messages; reflexivity.
  - exists [Performed (SetInputValue []); Performed (SetPendingImage None);
            Performed (SetIsImageMode false);
            Performed (AppendMessage (userMessage s clk)); Performed (SetIsTyping true);
            Performed (AppendMessage (botMessage clk))].
    do 3 eexists. split; [reflexivity|]. do 3 (split; [reflexivity|]).
    split; [|split; [|reflexivity]]; settle_messages; reflexivity.
Qed.

Lemma forced_image_exchange_witness :
  let s := mkState [] (js "a cyberpunk city") false true false None in
  let g := mkGemini (fun _ => false) (fun _ _ _ => Rejected)
                    (fun _ => Resolved (js "data:image/png;base64,AAAA")) in
  let evs := exec g (handleSendMessage s (mkClock 50 50 51 51)) in
  rejected s = false /\
  exists earlier,
    messages (after evs s)
    = earlier ++ [mkMessage (js "52") AGENT
                    [textPart (js "Initiating Banana Vision... Crafting high-fidelity visualization for: "
                               ++ dquote ++ js "a cyberpunk city" ++ dquote);
                     imagePart (js "data:image/png;base64,AAAA")]
                    51%Z (Some false)].
Proof.
  intros s g evs. split; [reflexivity|].
  destruct (forced_image_exchange s (mkClock 50 50 51 51) g
              (js "data:image/png;base64,AAAA") eq_refl eq_refl eq_refl eq_refl)
    as (opening & closing & earlier & earlier' & _ & _ & _ & _ & _ & Hm & _).
  exists earlier'. exact Hm.
Defined.

(** ** Export *)

Lemma appendPart_fold (ps : list Part) (acc : jsstring) :
  fold_left appendPart ps acc = acc ++ List.concat (List.map transcript_part ps).
Proof.
  revert acc. induction ps as [|p ps IH]; intros acc; cbn.
  - now rewrite app_nil_r.
  - rewrite IH. unfold appendPart, transcript_part.
    destruct (field (text p)), (field (image p));
      cbn [app]; rewrite <- ?app_assoc; cbn [app]; reflexivity.
Qed.

Lemma appendMessage_fold (loc : Locale) (ms : list Message) (acc : jsstring) :
  fold_left (appendMessage loc) ms acc
  = acc ++ List.concat (List.map (transcript_block loc) ms).
Proof.
  revert acc. induction ms as [|m ms IH]; intros acc; cbn.
  - now rewrite app_nil_r.
  - rewrite IH. unfold appendMessage, transcript_block. rewrite appendPart_fold.
    unfold roleName. rewrite <- !app_assoc. reflexivity.
Qed.

(** C9: exporting an empty turn list only raises the notice: nothing is
    downloaded and the state is as before.  Exporting [N] turns downloads
    one file whose body is the header followed by exactly [N] blocks, the
    [i]-th being the block of the [i]-th turn (its time, its role label,
    its parts as text or placeholder lines); the state is as before. *)
Theorem export_transcript (loc : Locale) (today stamp : Z) (g : Gemini) (s : State) :
  (messages s = [] ->
     exportChatHistory loc today stamp s = Alert (js "No messages to export.") ;; Done) /\
  (messages s <> [] ->
     exists filename blocks,
       exportChatHistory loc today stamp s
       = Download filename (exportHeader loc today ++ List.concat blocks) ;; Done /\
       List.length blocks = List.length (messages s) /\
       forall i m, nth_error (messages s) i = Some m ->
                   nth_error blocks i = Some (transcript_block loc m)) /\
  after (exec g (exportChatHistory loc today stamp s)) s = s /\
  (forall t, t <> [] -> transcript_part (textPart t) = t ++ newline) /\
  (forall u, u <> [] ->
     transcript_part (imagePart u) = js "[Generated Image Attached]" ++ newline).
Proof.
  unfold exportChatHistory. repeat split.
  - intros ->. reflexivity.
  - intros Hne. destruct (messages s) as [|m ms] eqn:E; [contradiction|].
    cbn [List.length Nat.eqb]. do 2 eexists. split; [|split].
    + rewrite appendMessage_fold. reflexivity.
    + now rewrite length_map.
    + intros i m' Hi. rewrite nth_error_map, Hi. reflexivity.
  - destruct (messages s); reflexivity.
  - intros [|c t] H; [contradiction|].
    unfold transcript_part. cbn. now rewrite app_nil_r.
  - intros [|c u] H; [contradiction|reflexivity].
Qed.

Lemma export_transcript_witness :
  let loc := mkLocale (fun _ => js "11/2/2026, 9:58:00 AM") (fun _ => js "09:58 AM")
                      (fun _ => js "2026-11-02T09:58:00.000Z") in
  let g := mkGemini (fun _ => false) (fun _ _ _ => Rejected) (fun _ => Rejected) in
  let s := mkState sample_turns [] false false false None in
  exportChatHistory loc 0 1 initial = Alert (js "No messages to export.") ;; Done /\
  exists filename blocks,
    exportChatHistory loc 0 1 s
    = Download filename (exportHeader loc 0 ++ List.concat blocks) ;; Done /\
    List.length blocks = 10%nat.
Proof.
  intros loc g s. split.
  - exact (proj1 (export_transcript loc 0 1 g initial) eq_refl).
  - destruct (proj1 (proj2 (export_transcript loc 0 1 g s)) ltac:(discriminate))
      as (filename & blocks & He & Hl & _).
    exists filename, blocks. exact (conj He Hl).
Defined.

(** ** One exchange at a time *)

Lemma none_pending_iff (msgs : list Message) :
  existsb pending msgs = false <-> forall m, In m msgs -> pending m = false.
Proof.
  split.
  - intros H m Hm. destruct (pending m) eqn:E; [|reflexivity].
    assert (existsb pending msgs = true) by (apply existsb_exists; eauto).
    congruence.
  - intros H. destruct (existsb pending msgs) eqn:E; [|reflexivity].
    apply existsb_exists in E as (m & Hm & Hp). rewrite (H m Hm) in Hp. discriminate.
Qed.

Lemma only_pending_patch (bid : jsstring) (c : list Part) (p : bool) (msgs : list Message) :
  only_pending bid msgs -> only_pending bid (List.map (patch bid c p) msgs).
Proof.
  intros H m Hm Hp. apply in_map_iff in Hm as (m0 & <- & Hm0).
  unfold patch in *. destruct (eqb_str (id m0) bid) eqn:E.
  - cbn. now apply eqb_str_eq.
  - auto.
Qed.

Lemma none_pending_final (bid : jsstring) (c : list Part) (msgs : list Message) :
  only_pending bid msgs -> existsb pending (List.map (patch bid c false) msgs) = false.
Proof.
  intros H. apply none_pending_iff. intros m Hm.
  apply in_map_iff in Hm as (m0 & <- & Hm0).
  unfold patch. destruct (eqb_str (id m0) bid) eqn:E; [reflexivity|].
  destruct (pending m0) eqn:Hp; [|reflexivity].
  apply H in Hp; [|assumption]. subst bid. now rewrite eqb_str_refl in E.
Qed.

Lemma finishes_run (should : jsstring -> bool) (bid : jsstring) (t : Task) :
  finishes bid t ->
  forall s, isTyping s = true -> only_pending bid (messages s) ->
            settled_inv bid (run_sync should t s).
Proof.
  induction 1 as [c|c p k _ IH|e k _ IH|x k _ IH|call k Hk _]; intros s Ht Hp.
  - cbn. split; [reflexivity|]. now apply none_pending_final.
  - cbn [run_sync]. apply IH; [exact Ht|]. now apply only_pending_patch.
  - cbn [run_sync]. now apply IH.
  - cbn [run_sync]. now apply IH.
  - cbn. auto.
Qed.

Lemma pending_update (i : jsstring) (c : list Part) (m : Message) :
  pending (update i c m) = pending m /\ id (update i c m) = id m.
Proof. unfold update. destruct (eqb_str (id m) i); cbn; auto. Qed.

Lemma only_pending_opened (s : State) (clk : Clock) :
  existsb pending (messages s) = false ->
  only_pending (botMessageId clk)
               ((messages s ++ [userMessage s clk]) ++ [botMessage clk]).
Proof.
  intros H m Hm Hp. rewrite none_pending_iff in H.
  apply in_app_or in Hm as [Hm|[<-|[]]]; [|reflexivity].
  apply in_app_or in Hm as [Hm|[<-|[]]]; [|discriminate].
  rewrite (H m Hm) in Hp. discriminate.
Qed.

Ltac finishing := repeat (constructor || intros [] || intro).

(** An accepted submission made while nothing is pending either runs to
    completion at once or suspends as the owner of the only pending turn. *)
Lemma submit_inv (should : jsstring -> bool) (s : State) (clk : Clock) :
  rejected s = false ->
  existsb pending (messages s) = false ->
  settled_inv (botMessageId clk) (run_sync should (handleSendMessage s clk) s).
Proof.
  intros Hacc Hnone. pose proof (only_pending_opened s clk Hnone) as Hopen.
  enter_handler Hacc.
  destruct (isListening s), (truthy_opt (pendingImage s)), (isImageMode s); cbn;
    try destruct (should (trim (inputValue s))); cbn;
    try destruct (history_of (messages s)); cbn;
    unfold settled_inv; cbn;
    first
      [ split; [reflexivity|]; split;
        [first [exact Hopen | apply only_pending_patch; exact Hopen]|finishing]
      | split; [reflexivity|]; apply none_pending_final; exact Hopen ].
Qed.

Lemma app_inv_step (should : jsstring -> bool) (a : App) (e : AppEvent) :
  app_inv a -> app_inv (app_step should a e).
Proof.
  intros Hinv. destruct a as [s susp]. unfold app_inv in *. cbn [ui suspended] in *.
  destruct e as [v|b|b|v|i c| |clk|n o]; cbn [app_step ui suspended];
    try exact Hinv.
  - (* handleUpdateMessage keeps ids and pending flags *)
    cbn. destruct susp as [|k [|k' susp]]; [| |contradiction].
    + destruct Hinv as [Ht Hn]. split; [exact Ht|].
      apply none_pending_iff. intros m Hm.
      apply in_map_iff in Hm as (m0 & <- & Hm0).
      destruct (pending_update i c m0) as [-> _].
      rewrite none_pending_iff in Hn. auto.
    + destruct Hinv as (Ht & bid & Hp & Hk). split; [exact Ht|].
      exists bid. split; [|exact Hk]. intros m Hm Hpm.
      apply in_map_iff in Hm as (m0 & <- & Hm0).
      destruct (pending_update i c m0) as [E1 E2]. rewrite E1 in Hpm. rewrite E2. auto.
  - (* clearChat *)
    cbn. destruct susp as [|k [|k' susp]]; [| |contradiction].
    + destruct Hinv as [Ht _]. now split.
    + destruct Hinv as (Ht & bid & _ & Hk). split; [exact Ht|].
      exists bid. split; [|exact Hk]. intros m [].
  - (* handleSendMessage *)
    destruct susp as [|k [|k' susp]]; [| |contradiction].
    + destruct Hinv as [Ht Hn]. destruct (rejected s) eqn:Hrej.
      * unfold handleSendMessage. rewrite Hrej. cbn. now split.
      * pose proof (submit_inv should s clk Hrej Hn) as H.
        unfold settled_inv in H.
        destruct (run_sync should (handleSendMessage s clk) s) as [s' [k|]];
          cbn in *; [|exact H].
        destruct H as (H1 & H2 & H3). eauto.
    + destruct Hinv as (Ht & Hrest).
      unfold handleSendMessage, rejected. rewrite Ht, orb_true_r. cbn. eauto.
  - (* an awaited call settles *)
    destruct susp as [|k [|k' susp]]; [| |contradiction].
    + destruct n; exact Hinv.
    + destruct n as [|n]; [|destruct n; exact Hinv].
      cbn [at_index nth_error]. cbn [ui suspended firstn skipn app].
      destruct Hinv as (Ht & bid & Hp & Hk).
      pose proof (finishes_run should bid (k o) (Hk o) s Ht Hp) as H.
      unfold settled_inv in H.
      destruct (run_sync should (k o) s) as [s' [k'|]]; cbn in *; [|exact H].
      destruct H as (H1 & H2 & H3). eauto.
Qed.

Lemma app_inv_run (should : jsstring -> bool) (evs : list AppEvent) (a : App) :
  app_inv a -> app_inv (fold_left (app_step should) evs a).
Proof.
  revert a. induction evs as [|e evs IH]; intros a H; [exact H|].
  cbn. apply IH. now apply app_inv_step.
Qed.

(** C5: in every state the application can reach, at most one exchange
    is suspended; and while a turn is pending a submission does nothing:
    the handler returns at once, calls no capability and leaves the
    state, with its turn list, as it is. *)
Theorem one_exchange_in_flight
  (should : jsstring -> bool) (evs : list AppEvent) (clk : Clock) (g : Gemini) :
  let a := app_run should evs in
  (List.length (suspended a) <= 1)%nat /\
  (existsb pending (messages (ui a)) = true ->
     handleSendMessage (ui a) clk = Done /\
     exec g (handleSendMessage (ui a) clk) = [] /\
     app_step should a (Submitted clk) = a).
Proof.
  intros a.
  assert (Hinv : app_inv a) by (apply app_inv_run; cbn; auto).
  unfold app_inv in Hinv.
  destruct a as [s susp]. cbn [ui suspended] in *.
  destruct susp as [|k [|k' susp]]; [| |contradiction].
  - split; [cbn; lia|]. destruct Hinv as [_ Hn]. congruence.
  - split; [cbn; lia|]. intros _. destruct Hinv as [Ht _].
    assert (E : handleSendMessage s clk = Done).
    { unfold handleSendMessage, rejected. now rewrite Ht, orb_true_r. }
    cbn [app_step ui suspended]. rewrite E. cbn. auto.
Qed.

Lemma one_exchange_in_flight_witness :
  let evs := [Typed (js "hello, how are you"); Submitted (mkClock 50 50 51 51);
              Typed (js "are you there?")] in
  let a := app_run (fun _ => false) evs in
  existsb pending (messages (ui a)) = true /\
  app_step (fun _ => false) a (Submitted (mkClock 60 60 61 61)) = a.
Proof.
  intros evs a. split; [reflexivity|].
  exact (proj2 (proj2 (proj2 (one_exchange_in_flight (fun _ => false) evs
                                (mkClock 60 60 61 61)
                                (mkGemini (fun _ => false) (fun _ _ _ => Rejected)
                                          (fun _ => Rejected)))
                              eq_refl))).
Defined.

(** * Further properties of the handlers *)

(** ** Trimming and the submission guard *)

Lemma trimStart_split (s : jsstring) :
  exists p, s = p ++ trimStart s /\ forallb isWhiteSpace p = true.
Proof.
  induction s as [|c s (p & Hs & Hp)]; [now exists []|].
  cbn [trimStart]. destruct (isWhiteSpace c) eqn:E.
  - exists (c :: p). cbn. rewrite E, Hp. split; [now f_equal|reflexivity].
  - now exists [].
Qed.

Lemma trimStart_head (s : jsstring) (c : N) (r : jsstring) :
  trimStart s = c :: r -> isWhiteSpace c = false.
Proof.
  induction s as [|x s IH]; cbn [trimStart]; [discriminate|].
  destruct (isWhiteSpace x) eqn:E; [exact IH|].
  intros H. now injection H as <- _.
Qed.

Lemma trimStart_blank (s : jsstring) :
  forallb isWhiteSpace s = true -> trimStart s = [].
Proof.
  induction s as [|x s IH]; cbn; [reflexivity|].
  intros H. apply andb_true_iff in H as [-> H]. auto.
Qed.

Lemma forallb_rev {A : Type} (f : A -> bool) (l : list A) :
  forallb f (rev l) = true <-> forallb f l = true.
Proof.
  rewrite !forallb_forall. split; intros H x Hx; apply H;
    [now apply in_rev in Hx|now apply in_rev].
Qed.

(** [trim] removes a run of whitespace at each end and nothing else. *)
Lemma trim_split (s : jsstring) :
  exists p q, s = p ++ trim s ++ q /\
              forallb isWhiteSpace p = true /\ forallb isWhiteSpace q = true.
Proof.
  unfold trim, trimEnd.
  destruct (trimStart_split s) as (p & Hs & Hp).
  destruct (trimStart_split (rev (trimStart s))) as (q & Hr & Hq).
  exists p, (rev q). split; [|split; [exact Hp|now apply forallb_rev]].
  rewrite Hs at 1. f_equal.
  rewrite <- (rev_involutive (trimStart s)), Hr at 1. now rewrite rev_app_distr.
Qed.

Lemma trim_empty_iff (s : jsstring) :
  trim s = [] <-> forallb isWhiteSpace s = true.
Proof.
  split.
  - intros H. destruct (trim_split s) as (p & q & Hs & Hp & Hq).
    rewrite H in Hs. rewrite Hs, forallb_app. cbn. now rewrite Hp, Hq.
  - intros H. unfold trim, trimEnd. now rewrite (trimStart_blank s H).
Qed.

Lemma trim_last (s r : jsstring) (c : N) :
  trim s = r ++ [c] -> isWhiteSpace c = false.
Proof.
  unfold trim, trimEnd. intros H.
  apply (f_equal (@rev N)) in H. rewrite rev_involutive, rev_unit in H.
  now apply trimStart_head in H.
Qed.

Lemma trim_first (s r : jsstring) (c : N) :
  trim s = c :: r -> isWhiteSpace c = false.
Proof.
  unfold trim, trimEnd. intros H.
  destruct (trimStart_split (rev (trimStart s))) as (q & Hr & _).
  apply (f_equal (@rev N)) in H. rewrite rev_involutive in H.
  rewrite H in Hr. apply (f_equal (@rev N)) in Hr.
  rewrite rev_involutive, rev_app_distr, rev_involutive in Hr.
  cbn in Hr. now apply trimStart_head in Hr.
Qed.

(** X1: a submission is accepted exactly when no exchange is in flight
    and either the input holds a character that is not whitespace or an
    image is attached. *)
Theorem guard_accepts_iff (s : State) :
  rejected s = false <->
  isTyping s = false /\
  ((exists c, In c (inputValue s) /\ isWhiteSpace c = false) \/
   truthy_opt (pendingImage s) = true).
Proof.
  unfold rejected. rewrite orb_false_iff, andb_false_iff, !negb_false_iff.
  assert (E : truthy (trim (inputValue s)) = true <->
              exists c, In c (inputValue s) /\ isWhiteSpace c = false).
  { split.
    - intros H. destruct (forallb isWhiteSpace (inputValue s)) eqn:F.
      + apply trim_empty_iff in F. rewrite F in H. discriminate.
      + apply not_true_iff_false in F. rewrite forallb_forall in F.
        destruct (existsb (fun c => negb (isWhiteSpace c)) (inputValue s)) eqn:X.
        * apply existsb_exists in X as (c & Hc & Hw).
          exists c. split; [exact Hc|now apply negb_true_iff].
        * exfalso. apply F. intros c Hc.
          destruct (isWhiteSpace c) eqn:W; [reflexivity|].
          assert (existsb (fun c => negb (isWhiteSpace c)) (inputValue s) = true)
            by (apply existsb_exists; exists c; now rewrite W).
          congruence.
    - intros (c & Hc & Hw). destruct (trim (inputValue s)) eqn:T; [|reflexivity].
      apply trim_empty_iff in T. rewrite forallb_forall in T.
      rewrite (T c Hc) in Hw. discriminate. }
  rewrite E. tauto.
Qed.

(** X2: the send button is disabled exactly when the handler, which the
    Enter key reaches all the same, would return without doing anything;
    and it is highlighted exactly when it is not disabled. *)
Theorem send_button_matches_guard (s : State) (clk : Clock) :
  (sendDisabled s = true <-> handleSendMessage s clk = Done) /\
  sendActive s = negb (sendDisabled s).
Proof.
  split.
  - unfold handleSendMessage. change (sendDisabled s) with (rejected s).
    destruct (rejected s); split; try reflexivity; discriminate.
  - unfold sendActive, sendDisabled.
    destruct (truthy (trim (inputValue s))), (truthy_opt (pendingImage s)),
      (isTyping s); reflexivity.
Qed.

(** X3: the user turn of an accepted submission is appended, is never
    empty, and holds the trimmed text (when there is any) before the
    attached image (when there is one); the text is the input without
    the whitespace at its two ends, and every part carries exactly one
    non-empty field. *)
Theorem user_turn_shape (s : State) (clk : Clock) (g : Gemini) :
  rejected s = false ->
  let m := userMessage s clk in
  In (Performed (AppendMessage m)) (exec g (handleSendMessage s clk)) /\
  role m = USER /\ isPending m = None /\ content m <> [] /\
  (exists txt img,
      content m = txt ++ img /\
      (txt = [] /\ trim (inputValue s) = [] \/
       exists c r, trim (inputValue s) = c :: r /\ txt = [textPart (c :: r)]) /\
      (img = [] /\ truthy_opt (pendingImage s) = false \/
       exists u, pendingImage s = Some u /\ u <> [] /\ img = [imagePart u])) /\
  (exists p q, inputValue s = p ++ trim (inputValue s) ++ q /\
               forallb isWhiteSpace p = true /\ forallb isWhiteSpace q = true) /\
  (forall c r, trim (inputValue s) = c :: r -> isWhiteSpace c = false) /\
  (forall r c, trim (inputValue s) = r ++ [c] -> isWhiteSpace c = false).
Proof.
  intros Hacc m. split.
  { enter_handler Hacc. destruct (isListening s); cbn; tauto. }
  split; [reflexivity|]. split; [reflexivity|].
  assert (Hshape : exists txt img,
             content m = txt ++ img /\
             (txt = [] /\ trim (inputValue s) = [] \/
              exists c r, trim (inputValue s) = c :: r /\ txt = [textPart (c :: r)]) /\
             (img = [] /\ truthy_opt (pendingImage s) = false \/
              exists u, pendingImage s = Some u /\ u <> [] /\ img = [imagePart u])).
  { subst m. unfold userMessage, userContent. cbn [content].
    do 2 eexists. split; [reflexivity|]. split.
    - destruct (trim (inputValue s)) as [|c r]; cbn; [now left|right; eauto].
    - destruct (pendingImage s) as [[|c u]|]; cbn; try (now left).
      right. eexists. repeat split. discriminate. }
  split; [|split; [exact Hshape|]].
  - destruct Hshape as (txt & img & -> & [[-> Ht]|(c & r & Ht & ->)] & [[-> Hi]|(u & Hu & Hne & ->)]);
      try discriminate.
    unfold rejected in Hacc. rewrite Ht, Hi in Hacc. discriminate.
  - split; [apply trim_split|]. split; intros ? ?; [apply trim_first|apply trim_last].
Qed.

Lemma user_turn_shape_witness :
  let s := mkState [] (js "  what is this? ") false false false
                   (Some (js "data:image/png;base64,AAAA")) in
  rejected s = false /\
  content (userMessage s (mkClock 50 50 51 51))
  = [textPart (js "what is this?"); imagePart (js "data:image/png;base64,AAAA")].
Proof.
  intros s. split; [reflexivity|].
  destruct (user_turn_shape s (mkClock 50 50 51 51)
              (mkGemini (fun _ => false) (fun _ _ _ => Rejected) (fun _ => Rejected))
              eq_refl) as (_ & _ & _ & _ & _).
  reflexivity.
Defined.

(** ** The three ways an exchange can go *)

(** X4: on the text path, when the history could be built and the text
    generator resolves, that call is the only awaited call of the
    exchange, the agent turn ends with exactly the reply and
    [isPending = false], every other turn stays in its place, and
    [isTyping] is cleared. *)
Theorem text_exchange_success
  (s : State) (clk : Clock) (g : Gemini) (h : list Content) (reply : jsstring) :
  rejected s = false ->
  truthy_opt (pendingImage s) = true \/
    (isImageMode s = false /\ shouldGenerateImage g (trim (inputValue s)) = false) ->
  history_of (messages s) = Some h ->
  generateTextResponse g (or_else (trim (inputValue s)) defaultPrompt) (Some h)
                       (or_undefined (pendingImage s)) = Resolved reply ->
  let evs := exec g (handleSendMessage s clk) in
  count is_async evs = 1%nat /\
  isTyping (after evs s) = false /\
  exists earlier,
    messages (after evs s)
    = earlier ++ [mkMessage (botMessageId clk) AGENT [textPart reply]
                            (date_agent clk) (Some false)] /\
    Forall2 (fun before now =>
               id now = id before /\ role now = role before /\
               timestamp now = timestamp before /\
               (id before <> botMessageId clk -> now = before))
            (messages s ++ [userMessage s clk]) earlier.
Proof.
  intros Hacc Hpath Hh Hres evs. subst evs. enter_handler Hacc. rewrite Hh.
  destruct Hpath as [Hi|[Hm Hc]].
  - rewrite Hi. cbn. destruct (isListening s); cbn; rewrite Hres; cbn;
      (split; [reflexivity|]); (split; [reflexivity|]);
      settle_messages;
      (eexists; split; [reflexivity|]);
      (apply Forall2_app; [apply patch_keeps|apply (patch_keeps _ _ _ [_])]).
  - rewrite Hm.
    destruct (isListening s), (truthy_opt (pendingImage s)); cbn;
      try rewrite Hc; cbn; rewrite Hres; cbn;
      (split; [reflexivity|]); (split; [reflexivity|]);
      settle_messages;
      (eexists; split; [reflexivity|]);
      (apply Forall2_app; [apply patch_keeps|apply (patch_keeps _ _ _ [_])]).
Qed.

Lemma text_exchange_success_witness :
  let s := mkState sample_turns (js "hello, how are you") false false false None in
  let g := mkGemini (fun _ => false) (fun _ _ _ => Resolved (js "Fine."))
                    (fun _ => Rejected) in
  let evs := exec g (handleSendMessage s (mkClock 50 50 51 51)) in
  rejected s = false /\
  exists earlier,
    messages (after evs s)
    = earlier ++ [mkMessage (js "52") AGENT [textPart (js "Fine.")] 51%Z (Some false)].
Proof.
  intros s g evs. split; [reflexivity|].
  destruct (history_of (messages s)) as [h|] eqn:Hh; [|discriminate Hh].
  destruct (text_exchange_success s (mkClock 50 50 51 51) g h (js "Fine.") eq_refl
              (or_intror (conj eq_refl eq_refl)) Hh eq_refl)
    as (_ & _ & earlier & Hm & _).
  exists earlier. exact Hm.
Defined.

(** X5: when no image is attached, the image mode is off and the
    classifier accepts the trimmed text [t], the exchange first asks the
    text generator, without history or image, to confirm the
    visualisation of [t].  If that call rejects, the image generator is
    never called and the agent turn ends with the failure text.  If it
    resolves, its answer is shown on the still pending turn and only then
    is the image generator called with [t]; when that resolves too, the
    turn ends with the answer followed by the image. *)
Theorem classified_image_exchange (s : State) (clk : Clock) (g : Gemini) :
  rejected s = false ->
  truthy_opt (pendingImage s) = false ->
  isImageMode s = false ->
  shouldGenerateImage g (trim (inputValue s)) = true ->
  let t := trim (inputValue s) in
  let ask := GenerateTextResponse
               (js "The user wants to visualize: " ++ dquote ++ t ++ dquote
                ++ js ". Confirm you are generating it.") None None in
  let evs := exec g (handleSendMessage s clk) in
  let failed := mkMessage (botMessageId clk) AGENT [textPart failureText]
                          (date_agent clk) (Some false) in
  (exists opening rest,
      evs = opening ++ Called ask :: Answered (settle g ask) :: rest /\
      existsb is_async opening = false) /\
  (settle g ask = Rejected ->
     count is_async evs = 1%nat /\ existsb is_image_call evs = false /\
     exists earlier, messages (after evs s) = earlier ++ [failed]) /\
  (forall answer,
      settle g ask = Resolved answer ->
      (exists opening closing,
          evs = opening
                ++ Called ask :: Answered (Resolved answer)
                :: Performed (PatchMessage (botMessageId clk) [textPart answer] true)
                :: Called (GenerateImage t) :: closing /\
          existsb is_image_call opening = false /\
          existsb is_async closing = false) /\
      (generateImage g t = Rejected ->
         exists earlier, messages (after evs s) = earlier ++ [failed]) /\
      (forall result,
          generateImage g t = Resolved result ->
          exists earlier,
            messages (after evs s)
            = earlier ++ [mkMessage (botMessageId clk) AGENT
                            [textPart answer; imagePart result]
                            (date_agent clk) (Some false)])).
Proof.
  intros Hacc Himg Hmode Hcls t ask evs failed. subst evs ask failed t.
  change (js "The user wants to visualize: " ++ dquote ++ trim (inputValue s)
          ++ dquote ++ js ". Confirm you are generating it.")
    with (confirmationPrompt (trim (inputValue s))).
  enter_handler Hacc. rewrite Himg, Hmode. cbn.
  destruct (isListening s); cbn; rewrite Hcls; cbn.
  all: split; [cut_at_call; reflexivity|].
  all: split; [intros Hrej; rewrite Hrej; cbn;
               split; [reflexivity|]; split; [reflexivity|];
               settle_messages; eexists; reflexivity|].
  all: intros answer Hans; rewrite Hans; cbn; split; [|split].
  all: try (cut_at_call; split; [reflexivity|]; branch; split; reflexivity).
  all: try (intros Hrej; rewrite Hrej; settle_messages; eexists; reflexivity).
  all: intros result Hres; rewrite Hres; settle_messages; eexists; reflexivity.
Qed.

Lemma classified_image_exchange_witness :
  let s := mkState [] (js " draw a cat") false false false None in
  let g := mkGemini (fun _ => true) (fun _ _ _ => Rejected)
                    (fun _ => Resolved (js "data:image/png;base64,AAAA")) in
  let evs := exec g (handleSendMessage s (mkClock 50 50 51 51)) in
  rejected s = false /\ existsb is_image_call evs = false.
Proof.
  intros s g evs. split; [reflexivity|].
  destruct (classified_image_exchange s (mkClock 50 50 51 51) g
              eq_refl eq_refl eq_refl eq_refl) as (_ & Hrej & _).
  exact (proj1 (proj2 (Hrej eq_refl))).
Defined.

(** X6: on the text path, when building the history throws, no
    capability is awaited at all: the error is logged, the agent turn
    ends with the failure text and [isPending = false], and [isTyping]
    is cleared, all before the handler returns. *)
Theorem history_throw_fails_exchange (s : State) (clk : Clock) (g : Gemini) :
  rejected s = false ->
  truthy_opt (pendingImage s) = true \/
    (isImageMode s = false /\ shouldGenerateImage g (trim (inputValue s)) = false) ->
  history_of (messages s) = None ->
  let evs := exec g (handleSendMessage s clk) in
  existsb is_async evs = false /\
  In (Performed (ConsoleError TypeError)) evs /\
  isTyping (after evs s) = false /\
  (exists earlier,
      messages (after evs s)
      = earlier ++ [mkMessage (botMessageId clk) AGENT [textPart failureText]
                              (date_agent clk) (Some false)]) /\
  snd (run_sync (shouldGenerateImage g) (handleSendMessage s clk) s) = None.
Proof.
  intros Hacc Hpath Hh evs. subst evs. enter_handler Hacc. rewrite Hh.
  destruct Hpath as [Hi|[Hm Hc]].
  - rewrite Hi. cbn. destruct (isListening s); cbn;
      (split; [reflexivity|]); (split; [tauto|]); (split; [reflexivity|]);
      (split; [|reflexivity]); settle_messages; eexists; reflexivity.
  - rewrite Hm.
    destruct (isListening s), (truthy_opt (pendingImage s)); cbn;
      try rewrite Hc; cbn;
      (split; [reflexivity|]); (split; [tauto|]); (split; [reflexivity|]);
      (split; [|reflexivity]); settle_messages; eexists; reflexivity.
Qed.

Lemma history_throw_fails_exchange_witness :
  let broken := mkMessage (js "7") AGENT [imagePart (js "abc")] 7%Z (Some false) in
  let s := mkState [broken] (js "and now?") false false false None in
  let g := mkGemini (fun _ => false) (fun _ _ _ => Resolved (js "Fine."))
                    (fun _ => Rejected) in
  history_of (messages s) = None /\
  existsb is_async (exec g (handleSendMessage s (mkClock 50 50 51 51))) = false.
Proof.
  intros broken s g. split; [reflexivity|].
  exact (proj1 (history_throw_fails_exchange s (mkClock 50 50 51 51) g eq_refl
                  (or_intror (conj eq_refl eq_refl)) eq_refl)).
Defined.

(** ** Reading an image URI *)

Lemma first_occurrence (x : N) (l : list N) :
  In x l -> exists l1 l2, l = l1 ++ x :: l2 /\ ~ In x l1.
Proof.
  induction l as [|y l IH]; [intros []|]. intros H.
  destruct (N.eq_dec y x) as [->|Hne].
  - exists [], l. split; [reflexivity|intros []].
  - destruct H as [H|H]; [contradiction|].
    destruct (IH H) as (l1 & l2 & -> & Hn).
    exists (y :: l1), l2. split; [reflexivity|].
    intros [E|E]; [contradiction|now apply Hn].
Qed.

Lemma second_segment (sep : N) (a : jsstring) :
  at_index (split sep a) 1 = None <-> ~ In sep a.
Proof.
  split.
  - intros H Hin. destruct (first_occurrence sep a Hin) as (l1 & l2 & -> & Hn).
    rewrite split_at_first in H by assumption. unfold at_index in H. cbn in H.
    destruct (split sep l2) eqn:E; [now apply split_nonempty in E|discriminate].
  - intros H. now rewrite split_without.
Qed.

(** X7: for a part without text whose image is a non-empty string, the
    history mapping throws exactly when there is no [:] before the first
    [,] of the string (or anywhere, when it has no [,]). *)
Theorem image_part_throws_iff (txt : option jsstring) (header tail : jsstring) :
  field txt = None ->
  ~ In comma header ->
  tail = [] \/ (exists b, tail = comma :: b) ->
  header ++ tail <> [] ->
  (requestPart (mkPart txt (Some (header ++ tail))) = None <-> ~ In colon header).
Proof.
  intros Htxt Hc Htail Hne. unfold requestPart. cbn [text image]. rewrite Htxt.
  rewrite field_truthy by (destruct (header ++ tail); [contradiction|reflexivity]).
  assert (E : at_index (split comma (header ++ tail)) 0 = Some header).
  { destruct Htail as [->|[b ->]].
    - rewrite app_nil_r, split_without by assumption. reflexivity.
    - rewrite split_at_first by assumption. reflexivity. }
  rewrite E. rewrite <- second_segment.
  destruct (at_index (split colon header) 1); split; congruence.
Qed.

Lemma image_part_throws_iff_witness :
  requestPart (imagePart (js "image/png;base64,AAAA")) = None.
Proof.
  apply (proj2 (image_part_throws_iff None (js "image/png;base64") (js ",AAAA")
                  eq_refl
                  ltac:(vm_compute; intuition discriminate)
                  (or_intror (ex_intro _ (js "AAAA") eq_refl))
                  ltac:(discriminate))).
  vm_compute; intuition discriminate.
Defined.

(** X8: the mapping reads any [<scheme>:<mime>[;<params>],<data>] the
    same way: it checks neither the scheme nor a [base64] marker, takes
    the MIME type up to the first [;], and takes as data what lies
    between the first [,] and the next one. *)
Theorem uri_parsing (txt : option jsstring) (scheme mime params data more : jsstring) :
  field txt = None ->
  ~ In comma scheme -> ~ In colon scheme ->
  ~ In comma mime -> ~ In colon mime -> ~ In semicolon mime ->
  ~ In comma params -> ~ In colon params ->
  params = [] \/ (exists p, params = semicolon :: p) ->
  ~ In comma data ->
  more = [] \/ (exists m, more = comma :: m) ->
  requestPart (mkPart txt (Some (scheme ++ colon :: mime ++ params
                                 ++ comma :: data ++ more)))
  = Some (ReqInlineData (Some data) (Some mime)).
Proof.
  intros Htxt Hs1 Hs2 Hm1 Hm2 Hm3 Hp1 Hp2 Hp Hd Hmore.
  unfold requestPart. cbn [text image]. rewrite Htxt.
  rewrite field_truthy by (destruct scheme; reflexivity).
  replace (scheme ++ colon :: mime ++ params ++ comma :: data ++ more)
    with ((scheme ++ colon :: mime ++ params) ++ comma :: data ++ more)
    by (rewrite <- app_assoc; cbn; now rewrite <- app_assoc).
  rewrite split_at_first by absent.
  assert (Ed : at_index (split comma (data ++ more)) 0 = Some data).
  { destruct Hmore as [->|[m ->]].
    - rewrite app_nil_r, split_without by assumption. reflexivity.
    - rewrite split_at_first by assumption. reflexivity. }
  unfold at_index in *. cbn [nth_error].
  destruct (split comma (data ++ more)) as [|d ds] eqn:E; [discriminate Ed|].
  cbn in Ed. injection Ed as ->. cbn [nth_error].
  rewrite split_at_first by assumption.
  rewrite (split_without colon (mime ++ params)) by absent.
  cbn [nth_error].
  destruct Hp as [->|[p ->]].
  - rewrite app_nil_r, split_without by assumption. reflexivity.
  - rewrite split_at_first by assumption. reflexivity.
Qed.

Lemma uri_parsing_witness :
  requestPart (imagePart (js "blob:text/plain;charset=utf-8,hello,world"))
  = Some (ReqInlineData (Some (js "hello")) (Some (js "text/plain"))).
Proof.
  exact (uri_parsing None (js "blob") (js "text/plain") (js ";charset=utf-8")
           (js "hello") (js ",world") eq_refl
           ltac:(vm_compute; intuition discriminate)
           ltac:(vm_compute; intuition discriminate)
           ltac:(vm_compute; intuition discriminate)
           ltac:(vm_compute; intuition discriminate)
           ltac:(vm_compute; intuition discriminate)
           ltac:(vm_compute; intuition discriminate)
           ltac:(vm_compute; intuition discriminate)
           (or_intror (ex_intro _ (js "charset=utf-8") eq_refl))
           ltac:(vm_compute; intuition discriminate)
           (or_intror (ex_intro _ (js "world") eq_refl))).
Defined.

(** ** What an exchange calls and what it leaves behind *)

Ltac sort_events :=
  repeat match goal with
    | H : False |- _ => destruct H
    | H : _ \/ _ |- _ => destruct H
    | H : Asked _ = Asked _ |- _ => injection H as <-
    | H : Called (GenerateImage _) = Called (GenerateImage _) |- _ => injection H as <-
    | H : @eq Event _ _ |- _ => discriminate H
    end.

(** X9: one submission awaits at most two calls, asks the classifier at
    most once and calls the image generator at most once.  The
    classifier is only asked, about the trimmed text, when no image is
    attached and the image mode is off; the image generator is only
    called, with the trimmed text, when no image is attached. *)
Theorem calls_per_exchange (s : State) (clk : Clock) (g : Gemini) :
  let evs := exec g (handleSendMessage s clk) in
  (count is_async evs <= 2)%nat /\
  (count is_asked evs <= 1)%nat /\
  (count is_image_call evs <= 1)%nat /\
  (forall x, In (Asked x) evs ->
             x = trim (inputValue s) /\ truthy_opt (pendingImage s) = false /\
             isImageMode s = false) /\
  (forall p, In (Called (GenerateImage p)) evs ->
             p = trim (inputValue s) /\ truthy_opt (pendingImage s) = false).
Proof.
  unfold handleSendMessage, isImageRequest, count.
  destruct (rejected s); cbn; [repeat split; try lia; intros ? []|].
  destruct (isListening s), (truthy_opt (pendingImage s)), (isImageMode s); cbn;
    try destruct (shouldGenerateImage g (trim (inputValue s))); cbn;
    branch;
    (split; [lia|]); (split; [lia|]); (split; [lia|]);
    split; intros ? Hin; sort_events; repeat split.
Qed.

(** The turn list after an accepted exchange that ran undisturbed: the
    old turns and the two new ones, under one final mutation. *)
Lemma exchange_result (s : State) (clk : Clock) (g : Gemini) :
  rejected s = false ->
  let final := after (exec g (handleSendMessage s clk)) s in
  (exists c, c <> [] /\
     messages final
     = List.map (patch (botMessageId clk) c false) (messages s ++ [userMessage s clk])
       ++ [mkMessage (botMessageId clk) AGENT c (date_agent clk) (Some false)] /\
     Forall (fun part =>
               (exists t, part = textPart t) \/
               (exists u, part = imagePart u /\
                          generateImage g (trim (inputValue s)) = Resolved u)) c) /\
  inputValue final = [] /\ pendingImage final = None /\ isImageMode final = false /\
  isTyping final = false /\ isListening final = isListening s.
Proof.
  intros Hacc. enter_handler Hacc.
  destruct (isListening s), (truthy_opt (pendingImage s)), (isImageMode s); cbn;
    try destruct (shouldGenerateImage g (trim (inputValue s))); cbn;
    branch; (split; [|repeat split]);
    settle_messages; eexists;
    (split; [|split; [rewrite map_app; reflexivity|]]);
    try discriminate;
    repeat (apply Forall_cons || apply Forall_nil);
    first [ left; eexists; reflexivity
          | right; eexists; split; [reflexivity|first [eassumption|reflexivity]] ].
Qed.

(** X10: an accepted exchange that runs undisturbed leaves the turn list
    two turns longer: the earlier turns and the user turn keep their
    places, ids, roles and timestamps, and the last turn is the agent
    turn, finalised with a non-empty content.  The composer is left
    cleared, [isTyping] is off and [isListening] is as it was. *)
Theorem exchange_appends_two (s : State) (clk : Clock) (g : Gemini) :
  rejected s = false ->
  let final := after (exec g (handleSendMessage s clk)) s in
  (exists kept agent,
      messages final = kept ++ [agent] /\
      Forall2 (fun before now =>
                 id now = id before /\ role now = role before /\
                 timestamp now = timestamp before /\
                 (id before <> botMessageId clk -> now = before))
              (messages s ++ [userMessage s clk]) kept /\
      id agent = botMessageId clk /\ role agent = AGENT /\
      timestamp agent = date_agent clk /\ isPending agent = Some false /\
      content agent <> []) /\
  List.length (messages final) = (List.length (messages s) + 2)%nat /\
  inputValue final = [] /\ pendingImage final = None /\ isImageMode final = false /\
  isTyping final = false /\ isListening final = isListening s.
Proof.
  intros Hacc final.
  destruct (exchange_result s clk g Hacc) as ((c & Hc & Hm & _) & Hrest).
  fold final in Hm, Hrest. split; [|split; [|exact Hrest]].
  - do 2 eexists. split; [exact Hm|]. split; [apply patch_keeps|].
    cbn. repeat split. exact Hc.
  - rewrite Hm, !length_app, length_map, length_app. cbn. lia.
Qed.

Lemma exchange_appends_two_witness :
  let s := mkState sample_turns (js "hello, how are you") false false true None in
  let g := mkGemini (fun _ => false) (fun _ _ _ => Resolved (js "Fine."))
                    (fun _ => Rejected) in
  rejected s = false /\
  List.length (messages (after (exec g (handleSendMessage s (mkClock 50 50 51 51))) s))
  = 12%nat.
Proof.
  intros s g. split; [reflexivity|].
  exact (proj1 (proj2 (exchange_appends_two s (mkClock 50 50 51 51) g eq_refl))).
Defined.

(** X11: the exchange leaves its own user turn exactly as it appended it
    unless the second clock reading is one millisecond behind the first,
    in which case both turns carry the same id and the user turn is
    rewritten with the agent's content. *)
Theorem user_turn_kept_iff (s : State) (clk : Clock) (g : Gemini) :
  rejected s = false ->
  let final := after (exec g (handleSendMessage s clk)) s in
  (nth_error (messages final) (List.length (messages s)) = Some (userMessage s clk)
   <-> now_user clk <> (now_agent clk + 1)%Z) /\
  (now_user clk = (now_agent clk + 1)%Z ->
   exists agent,
     nth_error (messages final) (S (List.length (messages s))) = Some agent /\
     nth_error (messages final) (List.length (messages s))
     = Some (mkMessage (id agent) USER (content agent) (date_user clk) (Some false))).
Proof.
  intros Hacc final.
  destruct (exchange_result s clk g Hacc) as ((c & _ & Hm & _) & _).
  fold final in Hm. rewrite Hm, map_app. cbn [List.map].
  rewrite <- !app_assoc. cbn [app].
  assert (Hn : forall x y,
             nth_error (List.map (patch (botMessageId clk) c false) (messages s)
                        ++ [x; y]) (List.length (messages s)) = Some x).
  { intros x y. rewrite nth_error_app2 by (rewrite length_map; lia).
    rewrite length_map, Nat.sub_diag. reflexivity. }
  assert (Hn' : forall x y,
             nth_error (List.map (patch (botMessageId clk) c false) (messages s)
                        ++ [x; y]) (S (List.length (messages s))) = Some y).
  { intros x y. rewrite nth_error_app2 by (rewrite length_map; lia).
    rewrite length_map.
    replace (S (List.length (messages s)) - List.length (messages s))%nat with 1%nat by lia.
    reflexivity. }
  rewrite Hn, Hn'.
  assert (Hid : now_user clk = (now_agent clk + 1)%Z ->
                eqb_str (id (userMessage s clk)) (botMessageId clk) = true).
  { intros E. unfold botMessageId. rewrite <- E. apply eqb_str_refl. }
  split; [split|].
  - intros H E. injection H as H. unfold patch in H. rewrite (Hid E) in H.
    apply (f_equal isPending) in H. discriminate H.
  - intros Hne. f_equal. apply patch_other. unfold botMessageId.
    intros E. now apply toString_inj in E.
  - intros E. eexists. split; [reflexivity|].
    unfold patch. rewrite (Hid E). cbn [id]. unfold botMessageId.
    rewrite <- E. reflexivity.
Qed.

Lemma user_turn_kept_iff_witness :
  let s := mkState [] (js "hello") false false false None in
  let g := mkGemini (fun _ => false) (fun _ _ _ => Resolved (js "Fine."))
                    (fun _ => Rejected) in
  rejected s = false /\
  nth_error (messages (after (exec g (handleSendMessage s (mkClock 52 52 51 51))) s)) 0
  = Some (mkMessage (js "52") USER [textPart (js "Fine.")] 52%Z (Some false)).
Proof.
  intros s g. split; [reflexivity|].
  destruct (proj2 (user_turn_kept_iff s (mkClock 52 52 51 51) g eq_refl) eq_refl)
    as (agent & Ha & Hu).
  vm_compute in Ha. injection Ha as <-. exact Hu.
Defined.

(** ** Editing a turn *)

(** X12: [handleUpdateMessage] replaces the content of every turn that
    carries the id and changes nothing else: the turns keep their places,
    ids, roles, timestamps and pending flags, the other cells of the
    state are untouched, an id that no turn carries makes it a no-op, and
    of two updates of one id the later one wins. *)
Theorem update_message_frame (s : State) (i : jsstring) (c c' : list Part) :
  let s' := perform (handleUpdateMessage i c) s in
  Forall2 (fun before now =>
             id now = id before /\ role now = role before /\
             timestamp now = timestamp before /\ isPending now = isPending before /\
             (id before = i -> content now = c) /\
             (id before <> i -> now = before))
          (messages s) (messages s') /\
  inputValue s' = inputValue s /\ isTyping s' = isTyping s /\
  isImageMode s' = isImageMode s /\ isListening s' = isListening s /\
  pendingImage s' = pendingImage s /\
  ((forall m, In m (messages s) -> id m <> i) -> s' = s) /\
  perform (handleUpdateMessage i c) (perform (handleUpdateMessage i c') s) = s'.
Proof.
  cbn. repeat split.
  - induction (messages s) as [|m l IH]; cbn; constructor; [|exact IH].
    unfold update. destruct (eqb_str (id m) i) eqn:E; cbn.
    + apply eqb_str_eq in E. repeat split; congruence.
    + repeat split; try congruence.
      intros H. apply eqb_str_eq in H. congruence.
  - intros H. destruct s as [msgs iv ty im li pi]. unfold with_messages. cbn in *.
    f_equal. induction msgs as [|m l IH]; [reflexivity|]. cbn.
    rewrite IH by (intros m' Hm'; apply H; now right).
    unfold update. rewrite eqb_str_neq by (apply H; now left). reflexivity.
  - unfold with_messages. cbn. f_equal. rewrite map_map. apply map_ext.
    intros m. unfold update. destruct (eqb_str (id m) i) eqn:E; cbn; now rewrite E.
Qed.

(** ** The machine between exchanges *)

Lemma finishes_projection {A : Type} (f : Message -> A)
  (should : jsstring -> bool) (bid : jsstring) (t : Task) :
  (forall i c p m, f (patch i c p m) = f m) ->
  finishes bid t ->
  forall s, List.map f (messages (fst (run_sync should t s))) = List.map f (messages s).
Proof.
  intros Hp. induction 1 as [c|c p k _ IH|e k _ IH|x k _ IH|call k Hk _]; intros s.
  - cbn. rewrite map_map. apply map_ext. intros m. apply Hp.
  - cbn [run_sync]. rewrite IH. cbn. rewrite map_map. apply map_ext. intros m. apply Hp.
  - cbn [run_sync]. now rewrite IH.
  - cbn [run_sync]. now rewrite IH.
  - reflexivity.
Qed.

(** How one event changes a projection of the turn list that mutations
    preserve: a submission appends its two turns or nothing, clearing
    empties the list, nothing else adds or removes a turn. *)
Lemma step_projection {A : Type} (f : Message -> A)
  (should : jsstring -> bool) (a : App) (e : AppEvent) :
  (forall i c p m, f (patch i c p m) = f m) ->
  (forall i c m, f (update i c m) = f m) ->
  app_inv a ->
  List.map f (messages (ui (app_step should a e)))
  = match e with
    | Submitted clk =>
        List.map f (messages (ui a))
        ++ (if rejected (ui a) then []
            else [f (userMessage (ui a) clk); f (botMessage clk)])
    | Cleared => []
    | _ => List.map f (messages (ui a))
    end.
Proof.
  intros Hp Hu Hinv. destruct a as [s susp]. cbn [ui] in *.
  assert (Hpm : forall i c p l, List.map f (List.map (patch i c p) l) = List.map f l).
  { intros. rewrite map_map. apply map_ext. intros m. apply Hp. }
  destruct e as [v|b|b|v|i c| |clk|n o]; cbn [app_step ui suspended];
    try reflexivity.
  - cbn. rewrite map_map. apply map_ext. intros m. apply Hu.
  - destruct (rejected s) eqn:Hacc.
    + unfold handleSendMessage. rewrite Hacc. cbn. now rewrite app_nil_r.
    + enter_handler Hacc.
      destruct (isListening s), (truthy_opt (pendingImage s)), (isImageMode s); cbn;
        try destruct (should (trim (inputValue s))); cbn;
        try destruct (history_of (messages s)); cbn;
        rewrite ?Hpm, !map_app, <- ?app_assoc; reflexivity.
  - unfold app_inv in Hinv. cbn [suspended ui] in Hinv.
    destruct susp as [|k [|k' susp]]; [| |contradiction].
    + destruct n; reflexivity.
    + destruct n as [|n]; [|destruct n; reflexivity].
      cbn [at_index nth_error ui]. destruct Hinv as (_ & bid & _ & Hk).
      apply (finishes_projection f should bid (k o) Hp (Hk o)).
Qed.

Lemma app_run_inv (should : jsstring -> bool) (evs : list AppEvent) :
  app_inv (app_run should evs).
Proof. apply app_inv_run. cbn. auto. Qed.

Lemma app_run_snoc (should : jsstring -> bool) (evs : list AppEvent) (e : AppEvent) :
  app_run should (evs ++ [e]) = app_step should (app_run should evs) e.
Proof. unfold app_run. now rewrite fold_left_app. Qed.

Lemma patch_keeps_id (i : jsstring) (c : list Part) (p : bool) (m : Message) :
  id (patch i c p m) = id m.
Proof. apply patch_id. Qed.

Lemma patch_keeps_role (i : jsstring) (c : list Part) (p : bool) (m : Message) :
  role (patch i c p m) = role m.
Proof. apply patch_id. Qed.

Lemma update_keeps_id (i : jsstring) (c : list Part) (m : Message) :
  id (update i c m) = id m.
Proof. unfold update. now destruct (eqb_str (id m) i). Qed.

Lemma update_keeps_role (i : jsstring) (c : list Part) (m : Message) :
  role (update i c m) = role m.
Proof. unfold update. now destruct (eqb_str (id m) i). Qed.

(** X13: in every state the application can reach, [isTyping] is on
    exactly while an exchange is suspended at an await, and whenever it
    is off no turn is pending. *)
Theorem typing_iff_suspended (should : jsstring -> bool) (evs : list AppEvent) :
  let a := app_run should evs in
  (isTyping (ui a) = true <-> suspended a <> []) /\
  (isTyping (ui a) = false -> existsb pending (messages (ui a)) = false).
Proof.
  intros a. pose proof (app_run_inv should evs) as Hinv. fold a in Hinv.
  unfold app_inv in Hinv.
  destruct (suspended a) as [|k [|k' susp]]; [| |contradiction].
  - destruct Hinv as [Ht Hn]. rewrite Ht. repeat split; try congruence; auto.
  - destruct Hinv as [Ht _]. rewrite Ht. repeat split; try congruence; discriminate.
Qed.

(** X14: whatever the order of typing, editing, clearing, submitting and
    settling, the ids of the turn list only change by a submission, which
    appends the ids of its two turns when it is accepted and nothing
    when it is rejected, and by clearing, which empties the list. *)
Theorem turn_ids_evolution (should : jsstring -> bool) (evs : list AppEvent)
  (e : AppEvent) :
  let a := app_run should evs in
  List.map id (messages (ui (app_step should a e)))
  = match e with
    | Submitted clk =>
        List.map id (messages (ui a))
        ++ (if rejected (ui a) then []
            else [toString (now_user clk); toString (now_agent clk + 1)])
    | Cleared => []
    | _ => List.map id (messages (ui a))
    end.
Proof.
  intros a.
  rewrite (step_projection id should a e patch_keeps_id update_keeps_id
             (app_run_inv should evs)).
  destruct e; reflexivity.
Qed.

(** X15: in every reachable state the turn list is a sequence of
    complete exchanges: a user turn followed by an agent turn, again and
    again. *)
Theorem turns_come_in_pairs (should : jsstring -> bool) (evs : list AppEvent) :
  exists n, List.map role (messages (ui (app_run should evs))) = exchanges n.
Proof.
  induction evs as [|e evs [n IH]] using rev_ind; [now exists 0%nat|].
  rewrite app_run_snoc.
  rewrite (step_projection role should _ e patch_keeps_role update_keeps_role
             (app_run_inv should evs)).
  rewrite IH.
  assert (Hsnoc : forall k, exchanges k ++ [USER; AGENT] = exchanges (S k)).
  { induction k as [|k IHk]; [reflexivity|]. cbn [exchanges app]. now rewrite IHk. }
  destruct e; try (now exists n); [now exists 0%nat|].
  destruct (rejected _); [exists n; now rewrite app_nil_r|].
  exists (S n). apply Hsnoc.
Qed.

(** X16: once the conversation is cleared, settlements of the exchange
    that was in flight leave the list empty: its reply is dropped. *)
Theorem cleared_reply_is_dropped
  (should : jsstring -> bool) (evs settlements : list AppEvent) :
  forallb is_settlement settlements = true ->
  messages (ui (app_run should (evs ++ Cleared :: settlements))) = [].
Proof.
  intros Hs. induction settlements as [|e l IH] using rev_ind.
  - now rewrite app_run_snoc.
  - rewrite forallb_app in Hs. apply andb_true_iff in Hs as [Hl He].
    cbn in He. rewrite andb_true_r in He. specialize (IH Hl).
    change (evs ++ Cleared :: l ++ [e]) with (evs ++ (Cleared :: l) ++ [e]).
    rewrite app_assoc, app_run_snoc.
    assert (E : List.map id (messages (ui (app_step should
                                             (app_run should (evs ++ Cleared :: l)) e)))
                = []).
    { rewrite (step_projection id should _ e patch_keeps_id update_keeps_id
                 (app_run_inv should (evs ++ Cleared :: l))).
      destruct e; try discriminate He. now rewrite IH. }
    now apply map_eq_nil in E.
Qed.

Lemma update_message_frame_witness :
  let s := mkState sample_turns (js "draft") false false false None in
  perform (handleUpdateMessage (js "42") [textPart (js "edited")]) s = s.
Proof.
  intros s.
  destruct (update_message_frame s (js "42") [textPart (js "edited")] [])
    as (_ & _ & _ & _ & _ & _ & H & _).
  apply H. intros m Hm.
  repeat (destruct Hm as [<-|Hm]; [discriminate|]). destruct Hm.
Defined.

Lemma typing_iff_suspended_witness :
  let a := app_run (fun _ => false)
                   [Typed (js "hello"); Submitted (mkClock 50 50 51 51);
                    Settled 0 (Resolved (js "Fine."))] in
  isTyping (ui a) = false /\ existsb pending (messages (ui a)) = false.
Proof.
  intros a. split; [reflexivity|].
  exact (proj2 (typing_iff_suspended (fun _ => false)
                  [Typed (js "hello"); Submitted (mkClock 50 50 51 51);
                   Settled 0 (Resolved (js "Fine."))]) eq_refl).
Defined.

Lemma cleared_reply_is_dropped_witness :
  messages (ui (app_run (fun _ => false)
                        ([Typed (js "hello"); Submitted (mkClock 50 50 51 51)]
                         ++ Cleared :: [Settled 0 (Resolved (js "Fine."))]))) = [].
Proof.
  exact (cleared_reply_is_dropped (fun _ => false)
           [Typed (js "hello"); Submitted (mkClock 50 50 51 51)]
           [Settled 0 (Resolved (js "Fine."))] eq_refl).
Defined.

(** X17: an exchange never waits on more than two calls.  Whatever
    happened to the state in between, a rejection ends the exchange on
    the spot, and so does the second settlement; the first settlement
    either ends it or suspends it once more, with [isTyping] untouched. *)
Theorem exchange_settles_within_two
  (should : jsstring -> bool) (s : State) (clk : Clock) (k1 : Outcome -> Task) :
  snd (run_sync should (handleSendMessage s clk) s) = Some k1 ->
  (forall s1, snd (run_sync should (k1 Rejected) s1) = None /\
              isTyping (fst (run_sync should (k1 Rejected) s1)) = false) /\
  (forall o1 s1,
      (snd (run_sync should (k1 o1) s1) = None /\
       isTyping (fst (run_sync should (k1 o1) s1)) = false) \/
      (exists k2,
          snd (run_sync should (k1 o1) s1) = Some k2 /\
          isTyping (fst (run_sync should (k1 o1) s1)) = isTyping s1 /\
          forall o2 s2,
            snd (run_sync should (k2 o2) s2) = None /\
            isTyping (fst (run_sync should (k2 o2) s2)) = false)).
Proof.
  unfold handleSendMessage, isImageRequest.
  destruct (rejected s); cbn; [discriminate|].
  destruct (isListening s), (truthy_opt (pendingImage s)), (isImageMode s); cbn;
    try destruct (should (trim (inputValue s))); cbn;
    try destruct (history_of (messages s)); cbn;
    intros Hk; try discriminate Hk; injection Hk as <-;
    (split; [intros s1; cbn; split; reflexivity|]);
    intros [v|] s1; cbn;
    first [ left; split; reflexivity
          | right; eexists; split; [reflexivity|]; split; [reflexivity|];
            intros [w|] s2; cbn; split; reflexivity ].
Qed.

Lemma exchange_settles_within_two_witness :
  let s := mkState [] (js "draw a cat") false false false None in
  exists k1,
    snd (run_sync (fun _ => true) (handleSendMessage s (mkClock 50 50 51 51)) s) = Some k1 /\
    snd (run_sync (fun _ => true) (k1 Rejected) s) = None.
Proof.
  intros s. eexists. split; [reflexivity|].
  exact (proj1 (proj1 (exchange_settles_within_two (fun _ => true) s
                         (mkClock 50 50 51 51) _ eq_refl) s)).
Defined.

(** ** Composer shortcuts *)

Lemma click_then_send (s : State) (suggestion : jsstring) (clk : Clock) (g : Gemini) :
  isTyping s = false ->
  trim suggestion = suggestion ->
  suggestion <> [] ->
  let s' := perform (suggestionClick suggestion) s in
  let visual := includes suggestion (js "Visualize") || includes suggestion (js "Imagine") in
  rejected s' = false /\
  inputValue s' = suggestion /\ trim (inputValue s') = suggestion /\
  messages s' = messages s /\ pendingImage s' = pendingImage s /\
  isImageMode s' = (visual || isImageMode s) /\
  (visual = true -> truthy_opt (pendingImage s) = false ->
     In (Called (GenerateImage suggestion)) (exec g (handleSendMessage s' clk)) /\
     count is_asked (exec g (handleSendMessage s' clk)) = 0%nat).
Proof.
  intros Ht Htrim Hne s' visual. subst s' visual. unfold perform, suggestionClick.
  destruct s as [msgs iv ty im li pi]. cbn in Ht. subst ty.
  assert (Htruthy : truthy suggestion = true)
    by (destruct suggestion; [contradiction|reflexivity]).
  destruct (includes suggestion (js "Visualize") || includes suggestion (js "Imagine"));
    cbn; unfold rejected; cbn; rewrite Htrim, Htruthy; cbn.
  - repeat (split; [reflexivity|]). intros _ Hp.
    unfold handleSendMessage, isImageRequest, rejected, count. cbn.
    rewrite Htrim, Htruthy, Hp. cbn.
    destruct li; cbn; branch; (split; [tauto|reflexivity]).
  - repeat (split; [reflexivity|]). discriminate.
Qed.

(** X18: every suggestion of the empty conversation can be sent as it
    is: once clicked, and nothing being in flight, the submission is
    accepted with the suggestion itself as trimmed text.  The two
    suggestions that say Visualize or Imagine switch the image mode on,
    so without an attachment the image generator is called with the
    suggestion and the classifier is not asked; the other two leave the
    image mode as it was. *)
Theorem suggestion_then_send (s : State) (suggestion : jsstring)
  (clk : Clock) (g : Gemini) :
  In suggestion suggestions ->
  isTyping s = false ->
  let s' := perform (suggestionClick suggestion) s in
  let visual := includes suggestion (js "Visualize") || includes suggestion (js "Imagine") in
  rejected s' = false /\
  inputValue s' = suggestion /\ trim (inputValue s') = suggestion /\
  messages s' = messages s /\ pendingImage s' = pendingImage s /\
  isImageMode s' = (visual || isImageMode s) /\
  (visual = true <->
     suggestion = js "Visualize a cyberpunk city" \/
     suggestion = js "Imagine a robotic honeybee") /\
  (visual = true -> truthy_opt (pendingImage s) = false ->
     In (Called (GenerateImage suggestion)) (exec g (handleSendMessage s' clk)) /\
     count is_asked (exec g (handleSendMessage s' clk)) = 0%nat).
Proof.
  intros Hin Ht s' visual.
  assert (Hfit : trim suggestion = suggestion /\ suggestion <> [])
    by (destruct Hin as [<-|[<-|[<-|[<-|[]]]]]; split; (reflexivity || discriminate)).
  destruct Hfit as [Htrim Hne].
  destruct (click_then_send s suggestion clk g Ht Htrim Hne)
    as (H1 & H2 & H3 & H4 & H5 & H6 & H7).
  fold s' in H1, H2, H3, H4, H5, H6, H7. fold visual in H6, H7.
  repeat (split; [assumption|]). split; [|exact H7].
  subst visual.
  destruct Hin as [<-|[<-|[<-|[<-|[]]]]]; vm_compute (includes _ _ || includes _ _);
    split; auto; try discriminate;
    intros [H|H]; apply js_inj in H; discriminate H.
Qed.

Lemma suggestion_then_send_witness :
  let s := mkState [] [] false false false None in
  let s' := perform (suggestionClick (js "Imagine a robotic honeybee")) s in
  let g := mkGemini (fun _ => false) (fun _ _ _ => Rejected) (fun _ => Rejected) in
  isImageMode s' = true /\
  In (Called (GenerateImage (js "Imagine a robotic honeybee")))
     (exec g (handleSendMessage s' (mkClock 50 50 51 51))).
Proof.
  intros s s' g. split; [reflexivity|].
  destruct (suggestion_then_send s (js "Imagine a robotic honeybee")
              (mkClock 50 50 51 51) g
              (or_intror (or_introl eq_refl)) eq_refl)
    as (_ & _ & _ & _ & _ & _ & _ & H).
  exact (proj1 (H eq_refl eq_refl)).
Defined.

(** X19: attaching a file that was read to a non-empty URL makes the
    next submission acceptable whatever the input text is, as long as
    nothing is in flight; that submission takes the text path, asks
    neither the classifier nor the image generator, and its user turn
    ends with the image.  Picking no file changes nothing, and a failed
    read clears the attachment. *)
Theorem attach_then_send (s : State) (u : jsstring) (clk : Clock) (g : Gemini) :
  isTyping s = false ->
  u <> [] ->
  let s' := perform (handleFileChange (Some (Some u))) s in
  let evs := exec g (handleSendMessage s' clk) in
  rejected s' = false /\
  existsb image_path_event evs = false /\
  count is_asked evs = 0%nat /\
  (exists txt, content (userMessage s' clk) = txt ++ [imagePart u]) /\
  perform (handleFileChange None) s = s /\
  pendingImage (perform (handleFileChange (Some None)) s) = None.
Proof.
  intros Ht Hu s' evs. subst evs s'.
  destruct s as [msgs iv ty im li pi]. cbn in Ht. subst ty.
  destruct u as [|c u]; [contradiction|].
  change (perform (handleFileChange (Some (Some (c :: u))))
                  (mkState msgs iv false im li pi))
    with (mkState msgs iv false im li (Some (c :: u))).
  assert (Hacc : rejected (mkState msgs iv false im li (Some (c :: u))) = false).
  { unfold rejected. cbn. now rewrite andb_false_r. }
  split; [exact Hacc|]. unfold count.
  split; [enter_handler Hacc; destruct li; cbn; branch; reflexivity|].
  split; [enter_handler Hacc; destruct li; cbn; branch; reflexivity|].
  split; [|split; reflexivity].
  unfold userMessage, userContent. cbn. eexists. reflexivity.
Qed.

Lemma attach_then_send_witness :
  let s := mkState [] (js "   ") false true false None in
  let s' := perform (handleFileChange (Some (Some (js "data:image/png;base64,AAAA")))) s in
  rejected s = true /\ rejected s' = false.
Proof.
  intros s s'. split; [reflexivity|].
  exact (proj1 (attach_then_send s (js "data:image/png;base64,AAAA")
                  (mkClock 50 50 51 51)
                  (mkGemini (fun _ => true) (fun _ _ _ => Rejected) (fun _ => Rejected))
                  eq_refl ltac:(discriminate))).
Defined.

(** ** Speech input *)

(** X20: [toggleListening] touches no cell but [isListening], and never
    lowers it: without a recognizer it only raises the notice; while
    listening it only asks the recognizer to stop, the flag falling
    later in a callback; otherwise it raises the flag and starts the
    recognizer. *)
Theorem toggle_listening_effects (recognitionRef : bool) (s : State) :
  let cmds := toggleListening recognitionRef s in
  let s' := speech_run cmds s in
  messages s' = messages s /\ inputValue s' = inputValue s /\
  isTyping s' = isTyping s /\ isImageMode s' = isImageMode s /\
  pendingImage s' = pendingImage s /\
  isListening s' = (isListening s || recognitionRef) /\
  (In StartRecognition cmds <-> recognitionRef = true /\ isListening s = false) /\
  (In (Act StopRecognition) cmds <-> recognitionRef = true /\ isListening s = true) /\
  ((exists notice, In (Act (Alert notice)) cmds) <-> recognitionRef = false).
Proof.
  unfold toggleListening, speech_run.
  destruct recognitionRef, (isListening s) eqn:E; cbn; rewrite ?E;
    repeat split; intros;
    repeat match goal with
      | H : False |- _ => destruct H
      | H : _ \/ _ |- _ => destruct H
      | H : _ /\ _ |- _ => destruct H
      | H : ex _ |- _ => destruct H
      end;
    try congruence; try tauto; eexists; left; reflexivity.
Qed.

(** X21: a dictated result never replaces what is in the input: it is
    appended after one space, or stands alone when the input was empty;
    it clears [isListening] and touches nothing else.  Recognizer errors
    and the end of recognition only clear [isListening]. *)
Theorem dictation_appends (transcript : jsstring) (s : State) :
  let s' := speech_run (onresult transcript s) s in
  (inputValue s = [] -> inputValue s' = transcript) /\
  (inputValue s <> [] -> inputValue s' = inputValue s ++ js " " ++ transcript) /\
  isListening s' = false /\
  messages s' = messages s /\ isTyping s' = isTyping s /\
  isImageMode s' = isImageMode s /\ pendingImage s' = pendingImage s /\
  speech_run onerror s = apply (SetIsListening false) s /\
  speech_run onend s = apply (SetIsListening false) s.
Proof.
  cbn. repeat split.
  - intros ->. reflexivity.
  - intros H. destruct (inputValue s); [contradiction|reflexivity].
Qed.

Lemma dictation_appends_witness :
  let s := mkState [] (js "draw") false false true None in
  inputValue (speech_run (onresult (js "a cat") s) s) = js "draw a cat".
Proof.
  intros s.
  exact (proj1 (proj2 (dictation_appends (js "a cat") s)) ltac:(discriminate)).
Defined.

(** ** The exported file *)

(** X22: a non-empty conversation is exported to a file named
    [nano-banana-chat-<day>.txt], where [<day>] is the ISO rendering of
    the second clock reading up to its first [T]; the body starts with
    the title line, the date line and the rule, followed by a blank line. *)
Theorem export_file_name
  (loc : Locale) (today stamp : Z) (s : State) (day rest : jsstring) :
  messages s <> [] ->
  toISOString loc stamp = day ++ 84 :: rest ->
  ~ In 84 day ->
  exists transcript,
    exportChatHistory loc today stamp s
    = Download (js "nano-banana-chat-" ++ day ++ js ".txt")
               (js "Nano Banana Agent - Conversation Export" ++ newline
                ++ js "Date: " ++ toLocaleString loc today ++ newline
                ++ js "-------------------------------------------" ++ newline
                ++ newline ++ transcript) ;;
      Done.
Proof.
  intros Hne Hiso Hday. unfold exportChatHistory.
  destruct (messages s) as [|m l]; [contradiction|]. cbn [List.length Nat.eqb].
  rewrite Hiso, split_at_first by assumption. unfold at_index. cbn [nth_error interpolate].
  rewrite appendMessage_fold. unfold exportHeader, APP_NAME.
  eexists. rewrite <- !app_assoc. reflexivity.
Qed.

Lemma export_file_name_witness :
  let loc := mkLocale (fun _ => js "11/2/2026, 9:58:00 AM") (fun _ => js "09:58 AM")
                      (fun _ => js "2026-11-02T09:58:00.000Z") in
  let s := mkState sample_turns [] false false false None in
  exists body,
    exportChatHistory loc 0 1 s = Download (js "nano-banana-chat-2026-11-02.txt") body ;; Done.
Proof.
  intros loc s.
  destruct (export_file_name loc 0 1 s (js "2026-11-02") (js "09:58:00.000Z")
              ltac:(discriminate) eq_refl ltac:(vm_compute; intuition discriminate))
    as [transcript H].
  eexists. exact H.
Defined.

(** ** The data model and the history from one exchange to the next *)

Lemma data_model_app (l1 l2 : list Message) :
  data_model (l1 ++ l2) = data_model l1 && data_model l2.
Proof. apply forallb_app. Qed.

Lemma data_model_patch (i : jsstring) (c : list Part) (p : bool) (l : list Message) :
  forallb part_ok c = true -> data_model l = true ->
  data_model (List.map (patch i c p) l) = true.
Proof.
  unfold data_model. rewrite !forallb_forall. intros Hc Hl m Hm.
  apply in_map_iff in Hm as (m0 & <- & Hm0). unfold patch.
  destruct (eqb_str (id m0) i); cbn; [|now apply Hl].
  apply forallb_forall. exact Hc.
Qed.

(** X23: exchanges keep the turn list within the data model.  When the
    list follows it, the attachment (if any) is a [data:] URI and the
    image generator resolves to a [data:] URI, the list after an
    undisturbed accepted exchange follows it too, so that the next
    history can be built. *)
Theorem data_model_preserved (s : State) (clk : Clock) (g : Gemini) :
  rejected s = false ->
  data_model (messages s) = true ->
  (forall u, pendingImage s = Some u -> u = [] \/ starts_with (js "data:") u = true) ->
  (forall u, generateImage g (trim (inputValue s)) = Resolved u ->
             u = [] \/ starts_with (js "data:") u = true) ->
  let final := after (exec g (handleSendMessage s clk)) s in
  data_model (messages final) = true /\
  exists h, history_of (messages final) = Some h.
Proof.
  intros Hacc Hdm Hatt Hgen final.
  assert (Hok : forall u, u = [] \/ starts_with (js "data:") u = true ->
                          part_ok (imagePart u) = true).
  { intros u [->|Hu]; [reflexivity|]. unfold part_ok. cbn.
    destruct (truthy u); [exact Hu|reflexivity]. }
  assert (H : data_model (messages final) = true).
  { destruct (exchange_result s clk g Hacc) as ((c & _ & Hm & Hc) & _).
    fold final in Hm. rewrite Hm.
    assert (Hcok : forallb part_ok c = true).
    { apply forallb_forall. rewrite Forall_forall in Hc. intros part Hp.
      destruct (Hc part Hp) as [[t ->]|(u & -> & Hu)]; [reflexivity|].
      apply Hok. now apply Hgen. }
    rewrite data_model_app. apply andb_true_iff. split.
    - apply data_model_patch; [exact Hcok|].
      rewrite data_model_app, Hdm. cbn [andb].
      unfold data_model, userMessage. cbn [forallb content]. rewrite andb_true_r.
      unfold userContent. rewrite forallb_app. apply andb_true_iff. split.
      + destruct (truthy (trim (inputValue s))); reflexivity.
      + destruct (pendingImage s) as [u|] eqn:E; [|reflexivity].
        cbn. destruct (truthy u) eqn:T; [|reflexivity]. cbn.
        rewrite andb_true_r. apply Hok. now apply Hatt.
    - cbn. now rewrite Hcok. }
  split; [exact H|]. now apply history_total.
Qed.

Lemma data_model_preserved_witness :
  let s := mkState sample_turns (js "a cyberpunk city") false true false None in
  let g := mkGemini (fun _ => false) (fun _ _ _ => Rejected)
                    (fun _ => Resolved (js "data:image/png;base64,AAAA")) in
  rejected s = false /\
  data_model (messages (after (exec g (handleSendMessage s (mkClock 50 50 51 51))) s)) = true.
Proof.
  intros s g. split; [reflexivity|].
  refine (proj1 (data_model_preserved s (mkClock 50 50 51 51) g eq_refl eq_refl _ _)).
  - intros u H. discriminate H.
  - intros u H. injection H as <-. right. reflexivity.
Defined.








(** X25: sending while the recognizer listens asks it to stop, and only
    then; the handler itself never writes [isListening], which stays as
    it was until the recognizer calls back. *)
Theorem send_stops_recognition (s : State) (clk : Clock) (g : Gemini) :
  let evs := exec g (handleSendMessage s clk) in
  (In (Performed StopRecognition) evs <-> rejected s = false /\ isListening s = true) /\
  (forall b, ~ In (Performed (SetIsListening b)) evs) /\
  (forall n, isListening (after (firstn n evs) s) = isListening s).
Proof.
  intros evs.
  assert (Hq : Forall (fun e => forall b, e <> Performed (SetIsListening b)) evs).
  { subst evs. unfold handleSendMessage, isImageRequest.
    destruct (rejected s); cbn; [constructor|].
    destruct (isListening s), (truthy_opt (pendingImage s)), (isImageMode s); cbn;
      try destruct (shouldGenerateImage g (trim (inputValue s))); cbn;
      branch; repeat constructor; discriminate. }
  split; [|split].
  - subst evs. unfold handleSendMessage, isImageRequest.
    destruct (rejected s); cbn; [split; [intros []|intros [H _]; discriminate H]|].
    destruct (isListening s), (truthy_opt (pendingImage s)), (isImageMode s); cbn;
      try destruct (shouldGenerateImage g (trim (inputValue s))); cbn;
      branch; split; intros H;
      first [ now (split; reflexivity)
            | now (cbn; tauto)
            | now (destruct H as [_ H]; discriminate H)
            | now sort_events ].
  - intros b Hin. rewrite Forall_forall in Hq. now apply (Hq _ Hin b).
  - intros n. apply (Forall_prefix _ n) in Hq.
    remember (firstn n evs) as l eqn:El. clear El. clear evs. revert s.
    induction Hq as [|e l He _ IH]; intros s0; [reflexivity|].
    change (after (e :: l) s0) with (after l (observe s0 e)). rewrite IH.
    destruct e as [a| | |]; try reflexivity.
    destruct a; try reflexivity. now specialize (He b).
Qed.
